(** * Moonbeam voice barista agent: the order-capture tool and the session bootstrap

    A shallow embedding of [src/barista_agent.py] and [src/agent.py].

    Python [str] values are sequences of Unicode code points, so they are
    embedded as lists of [N]; the operating system (clock and file system)
    is an explicit world threaded through an error monad; the LiveKit
    session is a trace of the requests made to it. *)

From Stdlib Require Import NArith List String Ascii Lia Bool.
From stdpp Require Import base option list gmap.

Local Open Scope N_scope.
#[local] Set Warnings "-register-all".

(** * The model *)

(** ** Python strings *)

Abbreviation code_point := N.
Abbreviation pystr := (list code_point).

(** An ASCII literal of the source, code point by code point. *)
Definition py (s : string) : pystr := map N_of_ascii (list_ascii_of_string s).
Arguments py s%_string.

(** Every code point of a Python string is below [sys.maxunicode + 1]. *)
Definition is_str (s : pystr) : Prop := Forall (λ c, c < 0x110000) s.

(** The characters the code and the JSON syntax name. *)
Definition SPACE : code_point := 32.
Definition QUOTE : code_point := 34.
Definition PERCENT : code_point := 37.
Definition COMMA : code_point := 44.
Definition SLASH : code_point := 47.
Definition COLON : code_point := 58.
Definition LBRACKET : code_point := 91.
Definition BACKSLASH : code_point := 92.
Definition RBRACKET : code_point := 93.
Definition UNDERSCORE : code_point := 95.
Definition LBRACE : code_point := 123.
Definition RBRACE : code_point := 125.
Definition NEWLINE : code_point := 10.

(** [a or b] on strings: the empty string is the only falsy one. *)
Definition py_or (a b : pystr) : pystr :=
  match a with
  | [] => b
  | _ :: _ => a
  end.

(** [s.startswith(p)] *)
Fixpoint startswith (p s : pystr) : bool :=
  match p, s with
  | [], _ => true
  | _ :: _, [] => false
  | a :: p', b :: s' => (a =? b) && startswith p' s'
  end.

(** [s.endswith(p)] *)
Definition endswith (p s : pystr) : bool := startswith (rev p) (rev s).

(** The occurrences of a non-empty [old] are found left to right and do not
    overlap.  [skip] counts the characters of an occurrence
    already replaced that are still to be passed over. *)
Fixpoint replace_from (old new : pystr) (skip : nat) (s : pystr) : pystr :=
  match s with
  | [] => []
  | c :: s' =>
      match skip with
      | S k => replace_from old new k s'
      | O =>
          if startswith old s
          then new ++ replace_from old new (length old - 1) s'
          else c :: replace_from old new 0 s'
      end
  end.

(** [s.replace(old, new)]; an empty [old] matches before every character and
    at the end. *)
Definition str_replace (s old new : pystr) : pystr :=
  match old with
  | [] => new ++ flat_map (λ c, c :: new) s
  | _ :: _ => replace_from old new 0 s
  end.

(** [sep.join(parts)] *)
Fixpoint str_join (sep : pystr) (parts : list pystr) : pystr :=
  match parts with
  | [] => []
  | [x] => x
  | x :: rest => x ++ sep ++ str_join sep rest
  end.

(** [posixpath.join(a, b)] *)
Definition path_join (a b : pystr) : pystr :=
  if startswith [SLASH] b then b
  else if (match a with [] => true | _ => false end) || endswith [SLASH] a then a ++ b
  else a ++ [SLASH] ++ b.

(** [a < b], [a == b], [a > b] on strings: code point by code point, a
    proper prefix first. *)
Fixpoint str_compare (a b : pystr) : comparison :=
  match a, b with
  | [], [] => Eq
  | [], _ :: _ => Lt
  | _ :: _, [] => Gt
  | x :: a', y :: b' =>
      match x ?= y with
      | Eq => str_compare a' b'
      | c => c
      end
  end.

(** A text between double quotes. *)
Definition quoted (s : pystr) : pystr := [QUOTE] ++ s ++ [QUOTE].

(** ** Time stamps *)

(** A [datetime.datetime] without time zone, as [utcnow] returns it. *)
Record datetime := mk_datetime {
  year : N; month : N; day : N;
  hour : N; minute : N; second : N; microsecond : N
}.

(** The ranges the [datetime] type enforces on its fields. *)
Definition valid_datetime (t : datetime) : Prop :=
  1 <= year t <= 9999 /\ 1 <= month t <= 12 /\ 1 <= day t <= 31 /\
  hour t < 24 /\ minute t < 60 /\ second t < 60 /\ microsecond t < 1000000.

(** The [w] low decimal digits of [n], most significant first: what the
    zero-padded conversions print for a field of at most [w] digits. *)
Fixpoint zdigits (w : nat) (n : N) : pystr :=
  match w with
  | O => []
  | S w' => zdigits w' (n / 10) ++ [48 + n mod 10]
  end.

(** The decimal digits of [n] with no padding, most significant first, as
    the C library prints a number; [fuel] bounds the number of digits. *)
Fixpoint decimal_fuel (fuel : nat) (n : N) : pystr :=
  match fuel with
  | O => []
  | S f => (if n <? 10 then [] else decimal_fuel f (n / 10)) ++ [48 + n mod 10]
  end.

(** A number has no more decimal digits than binary ones. *)
Definition decimal (n : N) : pystr := decimal_fuel (S (N.to_nat (N.log2 n))) n.

(** One conversion specification of [strftime].  The conversion is the C
    library's: month, day, hour, minute and second are padded with zeros to
    two digits, and the year is printed as the number it is, with no padding
    (three digits for the year 999). *)
Definition directive (d : code_point) (t : datetime) : pystr :=
  if d =? 89 then decimal (year t)            (* %Y *)
  else if d =? 109 then zdigits 2 (month t)   (* %m *)
  else if d =? 100 then zdigits 2 (day t)     (* %d *)
  else if d =? 72 then zdigits 2 (hour t)     (* %H *)
  else if d =? 77 then zdigits 2 (minute t)   (* %M *)
  else if d =? 83 then zdigits 2 (second t)   (* %S *)
  else if d =? PERCENT then [PERCENT]
  else [PERCENT; d].

(** [t.strftime(fmt)] *)
Fixpoint strftime (fmt : pystr) (t : datetime) : pystr :=
  match fmt with
  | [] => []
  | c :: rest =>
      if c =? PERCENT then
        match rest with
        | [] => [PERCENT]
        | d :: rest' => directive d t ++ strftime rest' t
        end
      else c :: strftime rest t
  end.

(** The lexicographic combination of two comparisons. *)
Definition lex (c rest : comparison) : comparison :=
  match c with
  | Eq => rest
  | _ => c
  end.

(** The order of two times, their microseconds left out. *)
Definition compare_seconds (t1 t2 : datetime) : comparison :=
  lex (year t1 ?= year t2) (lex (month t1 ?= month t2) (lex (day t1 ?= day t2)
    (lex (hour t1 ?= hour t2) (lex (minute t1 ?= minute t2) (second t1 ?= second t2))))).

(** Two readings of the clock that differ in the microseconds at most. *)
Definition same_second (t1 t2 : datetime) : Prop :=
  year t1 = year t2 ∧ month t1 = month t2 ∧ day t1 = day t2
  ∧ hour t1 = hour t2 ∧ minute t1 = minute t2 ∧ second t1 = second t2.

(** The number a string of decimal digits stands for. *)
Definition decimal_value (s : pystr) : N := fold_left (λ acc c, acc * 10 + (c - 48)) s 0.

(** An ASCII decimal digit. *)
Definition is_digit (c : code_point) : Prop := 48 <= c <= 57.

(** ** Python values and [json.dump]

    [asdict(order)] is a dictionary whose values are strings and one list of
    strings, and the tool returns a dictionary of strings and that
    dictionary; [pyobj] is the fragment of Python's values that they inhabit.
    A dictionary keeps its insertion order. *)

Inductive pyobj : Type :=
| PStr (s : pystr)
| PList (items : list pyobj)
| PDict (fields : list (pystr * pyobj)).

(** One digit of [format(n, '04x')] *)
Definition hexdigit (d : N) : code_point := if d <? 10 then 48 + d else 87 + d.

(** The four lower-case hexadecimal digits of [n < 0x10000], and the escape
    made of them. *)
Definition hex4 (n : N) : pystr :=
  [hexdigit (N.shiftr n 12 mod 16); hexdigit (N.shiftr n 8 mod 16);
   hexdigit (N.shiftr n 4 mod 16); hexdigit (n mod 16)].

Definition uescape (n : N) : pystr := [BACKSLASH; 117] ++ hex4 n.

(** The replacement [json.encoder.py_encode_basestring_ascii] makes for one
    character: [ESCAPE_DCT] for the quote, the backslash and the control
    characters, printable ASCII unchanged, and a [\uXXXX] escape (a surrogate
    pair of them above the basic plane) for everything else. *)
Definition escape_ascii (c : code_point) : pystr :=
  if c =? QUOTE then [BACKSLASH; QUOTE]
  else if c =? BACKSLASH then [BACKSLASH; BACKSLASH]
  else if c =? NEWLINE then [BACKSLASH; 110]
  else if c =? 13 then [BACKSLASH; 114]
  else if c =? 9 then [BACKSLASH; 116]
  else if c =? 12 then [BACKSLASH; 102]
  else if c =? 8 then [BACKSLASH; 98]
  else if (32 <=? c) && (c <=? 126) then [c]
  else if c <? 0x10000 then uescape c
  else
    let n := c - 0x10000 in
    let s1 := N.lor 0xd800 (N.land (N.shiftr n 10) 0x3ff) in
    let s2 := N.lor 0xdc00 (N.land n 0x3ff) in
    uescape s1 ++ uescape s2.

(** [encode_basestring_ascii(s)]: the string between quotes, every character
    replaced as above. *)
Definition encode_basestring_ascii (s : pystr) : pystr :=
  [QUOTE] ++ flat_map escape_ascii s ++ [QUOTE].

(** [_indent * level] with a newline in front *)
Definition newline_indent (indent level : nat) : pystr :=
  NEWLINE :: repeat SPACE (indent * level).

(** [JSONEncoder(indent=indent).iterencode(v)], the chunks concatenated.
    With an indent the item separator is a comma followed by the newline and
    the indentation of the container's items, and the key separator is a
    colon and a space. *)
Fixpoint iterencode (indent level : nat) (v : pyobj) : pystr :=
  match v with
  | PStr s => encode_basestring_ascii s
  | PList [] => py "[]"
  | PList items =>
      [LBRACKET] ++ newline_indent indent (S level)
      ++ str_join (COMMA :: newline_indent indent (S level))
                  (map (iterencode indent (S level)) items)
      ++ newline_indent indent level ++ [RBRACKET]
  | PDict [] => py "{}"
  | PDict fields =>
      [LBRACE] ++ newline_indent indent (S level)
      ++ str_join (COMMA :: newline_indent indent (S level))
                  (map (λ kv, encode_basestring_ascii (fst kv) ++ [COLON; SPACE]
                              ++ iterencode indent (S level) (snd kv)) fields)
      ++ newline_indent indent level ++ [RBRACE]
  end.

(** The text [json.dump(v, f, indent=2)] writes to [f]. *)
Definition json_dump (v : pyobj) : pystr := iterencode 2 0 v.

(** ** [json.loads]

    The decoder of Python's [json] package on the same fragment: strings,
    arrays and objects (a number or a literal is outside it and is not
    decoded).  [fuel] bounds the nesting of calls; every call consumes a
    character, and [json_loads] gives one more than the length of the text. *)

(** The white space of JSON: space, tab, line feed, carriage return. *)
Definition is_ws (c : code_point) : bool :=
  (c =? SPACE) || (c =? 9) || (c =? NEWLINE) || (c =? 13).

(** [WHITESPACE.match(s, end).end()] *)
Fixpoint skip_ws (s : pystr) : pystr :=
  match s with
  | [] => []
  | c :: s' => if is_ws c then skip_ws s' else s
  end.

(** The value of a hexadecimal digit, in either case. *)
Definition hexval (c : code_point) : option N :=
  if (48 <=? c) && (c <=? 57) then Some (c - 48)
  else if (97 <=? c) && (c <=? 102) then Some (c - 87)
  else if (65 <=? c) && (c <=? 70) then Some (c - 55)
  else None.

(** [_decode_uXXXX]: [int(esc, 16)] of four hexadecimal digits *)
Definition decode_uXXXX (a b c d : code_point) : option N :=
  x3 ← hexval a; x2 ← hexval b; x1 ← hexval c; x0 ← hexval d;
  Some (((x3 * 16 + x2) * 16 + x1) * 16 + x0).

(** The [BACKSLASH] table of the decoder *)
Definition unescape (e : code_point) : option code_point :=
  if e =? QUOTE then Some QUOTE
  else if e =? BACKSLASH then Some BACKSLASH
  else if e =? SLASH then Some SLASH
  else if e =? 98 then Some 8
  else if e =? 102 then Some 12
  else if e =? 110 then Some NEWLINE
  else if e =? 114 then Some 13
  else if e =? 116 then Some 9
  else None.

(** The two halves of the surrogate range. *)
Definition is_high_surrogate (u : N) : bool := (0xd800 <=? u) && (u <=? 0xdbff).
Definition is_low_surrogate (u : N) : bool := (0xdc00 <=? u) && (u <=? 0xdfff).

(** One more character in front of a scanned string. *)
Definition cons_fst {A B : Type} (a : A) (p : list A * B) : list A * B := (a :: p.1, p.2).

(** [scanstring(s, end, strict=True)], from the character after the opening
    quote: the decoded string and the text after the closing quote.  A
    [\uXXXX] escape of a high surrogate followed by one of a low surrogate
    is decoded to the single code point the pair stands for. *)
Fixpoint scanstring (s : pystr) : option (pystr * pystr) :=
  match s with
  | [] => None
  | c :: s1 =>
      if c =? QUOTE then Some ([], s1)
      else if c =? BACKSLASH then
        match s1 with
        | [] => None
        | e :: s2 =>
            if e =? 117 then
              match s2 with
              | a :: b :: c' :: d :: s3 =>
                  match decode_uXXXX a b c' d with
                  | None => None
                  | Some uni =>
                      if is_high_surrogate uni then
                        match s3 with
                        | b1 :: u1 :: s4 =>
                            if (b1 =? BACKSLASH) && (u1 =? 117) then
                              match s4 with
                              | a2 :: b2 :: c2 :: d2 :: s5 =>
                                  match decode_uXXXX a2 b2 c2 d2 with
                                  | None => None
                                  | Some uni2 =>
                                      if is_low_surrogate uni2 then
                                        cons_fst
                                          (0x10000 + N.lor (N.shiftl (uni - 0xd800) 10) (uni2 - 0xdc00))
                                          <$> scanstring s5
                                      else cons_fst uni <$> scanstring s3
                                  end
                              | _ => None
                              end
                            else cons_fst uni <$> scanstring s3
                        | _ => cons_fst uni <$> scanstring s3
                        end
                      else cons_fst uni <$> scanstring s3
                  end
              | _ => None
              end
            else
              match unescape e with
              | None => None
              | Some ch => cons_fst ch <$> scanstring s2
              end
        end
      else if c <? 32 then None
      else cons_fst c <$> scanstring s1
  end.

(** [dict(pairs)]: a later pair with a key already present replaces the
    value and keeps the key's position. *)
Fixpoint dict_set (k : pystr) (v : pyobj) (d : list (pystr * pyobj)) : list (pystr * pyobj) :=
  match d with
  | [] => [(k, v)]
  | (k', v') :: d' => if decide (k' = k) then (k, v) :: d' else (k', v') :: dict_set k v d'
  end.

(** [dict(pairs)], the pairs taken in their order. *)
Definition dict_of_pairs (pairs : list (pystr * pyobj)) : list (pystr * pyobj) :=
  fold_left (λ d kv, dict_set kv.1 kv.2 d) pairs [].

(** [scan_once], [JSONArray] and [JSONObject].  [array_items] and
    [object_pairs] are the two [while True] loops, entered at the first
    character of a value and at the character after a key's opening quote. *)
Fixpoint scan_once (fuel : nat) (s : pystr) : option (pyobj * pystr) :=
  match fuel with
  | O => None
  | S f =>
      match s with
      | [] => None
      | c :: s1 =>
          if c =? QUOTE then
            '(str, rest) ← scanstring s1; Some (PStr str, rest)
          else if c =? LBRACKET then
            match skip_ws s1 with
            | [] => None
            | c2 :: s2 =>
                if c2 =? RBRACKET then Some (PList [], s2)
                else '(items, rest) ← array_items f (c2 :: s2); Some (PList items, rest)
            end
          else if c =? LBRACE then
            match skip_ws s1 with
            | [] => None
            | c2 :: s2 =>
                if c2 =? RBRACE then Some (PDict [], s2)
                else if c2 =? QUOTE then
                  '(pairs, rest) ← object_pairs f s2; Some (PDict (dict_of_pairs pairs), rest)
                else None
            end
          else None
      end
  end
with array_items (fuel : nat) (s : pystr) : option (list pyobj * pystr) :=
  match fuel with
  | O => None
  | S f =>
      '(value, rest) ← scan_once f s;
      match skip_ws rest with
      | [] => None
      | c :: r1 =>
          if c =? RBRACKET then Some ([value], r1)
          else if c =? COMMA then cons_fst value <$> array_items f (skip_ws r1)
          else None
      end
  end
with object_pairs (fuel : nat) (s : pystr) : option (list (pystr * pyobj) * pystr) :=
  match fuel with
  | O => None
  | S f =>
      '(key, r0) ← scanstring s;
      match skip_ws r0 with
      | [] => None
      | c0 :: r1 =>
          if c0 =? COLON then
            '(value, r2) ← scan_once f (skip_ws r1);
            match skip_ws r2 with
            | [] => None
            | c :: r3 =>
                if c =? RBRACE then Some ([(key, value)], r3)
                else if c =? COMMA then
                  match skip_ws r3 with
                  | [] => None
                  | q :: r4 =>
                      if q =? QUOTE then cons_fst (key, value) <$> object_pairs f r4
                      else None
                  end
                else None
            end
          else None
      end
  end.

(** [json.loads(s)]: one value, with white space allowed around it and
    nothing else after it. *)
Definition json_loads (s : pystr) : option pyobj :=
  '(v, rest) ← scan_once (S (length s)) (skip_ws s);
  match skip_ws rest with
  | [] => Some v
  | _ :: _ => None
  end.

(** [d.get(key)] on a dictionary *)
Definition dict_get (key : pystr) (v : pyobj) : option pyobj :=
  match v with
  | PDict fields => snd <$> find (λ kv, bool_decide (kv.1 = key)) fields
  | _ => None
  end.

(** ** Strings and values that are read back as they were written *)

(** The string begins with a low surrogate. *)
Definition starts_low (s : pystr) : bool :=
  match s with
  | [] => false
  | c :: _ => is_low_surrogate c
  end.

(** No high surrogate of the string is directly followed by a low one. *)
Fixpoint surrogate_pair_free (s : pystr) : bool :=
  match s with
  | [] => true
  | c :: s' => negb (is_high_surrogate c && starts_low s') && surrogate_pair_free s'
  end.

(** The strings [json.loads] gives back as they were dumped. *)
Definition plain_str (s : pystr) : Prop := is_str s ∧ surrogate_pair_free s = true.

(** The values that are dumped and loaded back unchanged: their strings are
    plain and, as in any Python dictionary, no key occurs twice. *)
Fixpoint plain_obj (v : pyobj) : Prop :=
  match v with
  | PStr s => plain_str s
  | PList items => fold_right (λ x acc, plain_obj x ∧ acc) True items
  | PDict fields =>
      NoDup (map fst fields)
      ∧ fold_right (λ kv acc, plain_str (fst kv) ∧ plain_obj (snd kv) ∧ acc) True fields
  end.

(** ** The operating system

    Exceptions the calls of [save_order] can raise, and the state-and-exception
    monad of a program running in a world [W].  The subclasses of [OSError]
    that [mkdir] and [open] raise name the path of the call; the [OSError]
    of a failed write is of no subclass and names no file, and has its error
    number only. *)

Inductive exn : Type :=
| FileExistsError (path : pystr)
| FileNotFoundError (path : pystr)
| NotADirectoryError (path : pystr)
| IsADirectoryError (path : pystr)
| PermissionError (path : pystr)
| OSError (errno : N)
| ValueError (path : pystr)
| UnicodeEncodeError (path : pystr).

Inductive outcome (W A : Type) : Type :=
| Returned (a : A) (w : W)
| Raised (e : exn) (w : W).
Arguments Returned {W A} a w.
Arguments Raised {W A} e w.

(** [errno.ENOSPC]: no space left on device *)
Definition ENOSPC : N := 28.

(** [isinstance(e, OSError)] *)
Definition is_oserror (e : exn) : bool :=
  match e with
  | ValueError _ | UnicodeEncodeError _ => false
  | _ => true
  end.

(** A computation in a world [W] that returns an [A] or raises, and leaves a
    world either way. *)
Definition prog (W A : Type) : Type := W → outcome W A.

Definition ret {W A : Type} (a : A) : prog W A := λ w, Returned a w.

Definition bind {W A B : Type} (m : prog W A) (k : A → prog W B) : prog W B :=
  λ w, match m w with
       | Returned a w' => k a w'
       | Raised e w' => Raised e w'
       end.

Declare Scope prog_scope.
Delimit Scope prog_scope with prog.
Notation "x <- m ;; k" := (bind m (λ x, k))
  (at level 90, m at level 80, right associativity) : prog_scope.
Notation "m ;;; k" := (bind m (λ _, k))
  (at level 90, right associativity) : prog_scope.

(** The value and the world of an outcome. *)
Definition returned {W A : Type} (o : outcome W A) : option A :=
  match o with
  | Returned a _ => Some a
  | Raised _ _ => None
  end.

Definition world_after {W A : Type} (o : outcome W A) : W :=
  match o with
  | Returned _ w | Raised _ w => w
  end.

(** What [save_order] asks of the operating system. *)
Class OS (W : Type) : Type := {
  (** [datetime.utcnow()] *)
  utcnow : prog W datetime;
  (** [os.makedirs(path, exist_ok=exist_ok)] *)
  makedirs : pystr → bool → prog W unit;
  (** [open(path, "w", encoding="utf-8")]: the file is created, or emptied
      when it is there *)
  open_w : pystr → prog W unit;
  (** what [json.dump] writes through the open file, until the [with] block
      closes it *)
  write_text : pystr → pystr → prog W unit
}.

(** ** The order and the tool [save_order] *)

(** The dataclass [OrderState]. *)
Record OrderState := mk_order {
  drinkType : pystr;
  size : pystr;
  milk : pystr;
  extras : list pystr;
  name : pystr
}.

(** [dataclasses.asdict(order)]: the fields in the order of their declaration *)
Definition asdict (o : OrderState) : pyobj :=
  PDict [(py "drinkType", PStr (drinkType o));
         (py "size", PStr (size o));
         (py "milk", PStr (milk o));
         (py "extras", PList (map PStr (extras o)));
         (py "name", PStr (name o))].

(** [(name or "guest").replace(" ", "_")] *)
Definition safe_name_of (name : pystr) : pystr :=
  str_replace (py_or name (py "guest")) (py " ") (py "_").

(** [now.strftime("%Y%m%d-%H%M%S")] *)
Definition timestamp_of (now : datetime) : pystr := strftime (py "%Y%m%d-%H%M%S") now.

(** The f-string of the [message] entry; an empty list is falsy. *)
Definition message_of (drinkType size milk : pystr) (extras : list pystr) (name : pystr) : pystr :=
  py "Saved order for " ++ name ++ py ": " ++ size ++ py " " ++ drinkType
  ++ py " with " ++ milk ++ py " milk"
  ++ (match extras with
      | [] => []
      | _ :: _ => py " and " ++ str_join (py ", ") extras
      end)
  ++ py ".".

Section SaveOrder.
Context {W : Type} `{OS W}.
Local Open Scope prog_scope.

(** [BaristaAgent.save_order(ctx, drinkType, size, milk, extras, name)]; the
    run context is not used by the body and is left out. *)
Definition save_order (drinkType size milk : pystr) (extras : list pystr) (name : pystr)
  : prog W pyobj :=
  let order := mk_order drinkType size milk extras name in
  makedirs (py "orders") true ;;;
  now <- utcnow ;;
  let timestamp := timestamp_of now in
  let safe_name := safe_name_of name in
  let filename := path_join (py "orders") (timestamp ++ py "_" ++ safe_name ++ py ".json") in
  open_w filename ;;;
  write_text filename (json_dump (asdict order)) ;;;
  ret (PDict [(py "status", PStr (py "saved"));
              (py "filename", PStr filename);
              (py "message", PStr (message_of drinkType size milk extras name));
              (py "order", asdict order)]).
End SaveOrder.

(** The text written, the path written to and the dictionary returned, as
    functions of the arguments and of the time read. *)
Definition order_text (drinkType size milk : pystr) (extras : list pystr) (name : pystr) : pystr :=
  json_dump (asdict (mk_order drinkType size milk extras name)).

Definition order_filename (now : datetime) (name : pystr) : pystr :=
  path_join (py "orders") (timestamp_of now ++ py "_" ++ safe_name_of name ++ py ".json").

Definition order_result (now : datetime) (drinkType size milk : pystr) (extras : list pystr)
    (name : pystr) : pyobj :=
  PDict [(py "status", PStr (py "saved"));
         (py "filename", PStr (order_filename now name));
         (py "message", PStr (message_of drinkType size milk extras name));
         (py "order", asdict (mk_order drinkType size milk extras name))].

(** ** A POSIX world in memory

    The clock, the entries of the file system by path (relative to the
    working directory, which is the empty path), the entries the process may
    not write to, and the room left on the device. *)

(** An entry of the file system: a directory, or a regular file and its
    text.  The worlds of this model hold no other kind of entry (no link,
    pipe or device), and every path is the literal name of its entry. *)
Inductive node : Type :=
| Dir
| File (text : pystr).

Record world := mk_world {
  clock : datetime;
  nodes : gmap pystr node;
  unwritable : gset pystr;
  free_space : N
}.

(** Updates of one field of the world. *)
Definition set_nodes (f : gmap pystr node → gmap pystr node) (w : world) : world :=
  mk_world (clock w) (f (nodes w)) (unwritable w) (free_space w).

Definition set_free_space (n : N) (w : world) : world :=
  mk_world (clock w) (nodes w) (unwritable w) n.

Definition set_clock (t : datetime) (w : world) : world :=
  mk_world t (nodes w) (unwritable w) (free_space w).

(** The path separator. *)
Definition is_slash (c : code_point) : bool := c =? SLASH.

(** [p[:p.rfind('/') + 1]] *)
Fixpoint upto_last_slash (p : pystr) : pystr :=
  match p with
  | [] => []
  | c :: p' =>
      match upto_last_slash p' with
      | [] => if is_slash c then [c] else []
      | h => c :: h
      end
  end.

(** [p.lstrip('/')]; [dirname] strips the slashes at the end of the head. *)
Fixpoint lstrip_slash (p : pystr) : pystr :=
  match p with
  | [] => []
  | c :: p' => if is_slash c then lstrip_slash p' else p
  end.

(** [posixpath.dirname(p)] *)
Definition dirname (p : pystr) : pystr :=
  let head := upto_last_slash p in
  if forallb is_slash head then head else rev (lstrip_slash (rev head)).

(** [posixpath.basename(p)] *)
Definition basename (p : pystr) : pystr := drop (length (upto_last_slash p)) p.

(** A path the system calls refuse before looking at the file system: an
    embedded NUL, or a surrogate the file-system encoding cannot encode. *)
Definition has_nul (p : pystr) : bool := existsb (λ c, c =? 0) p.

Definition unencodable (c : code_point) : bool :=
  (0xd800 <=? c) && (c <=? 0xdfff) && negb ((0xdc80 <=? c) && (c <=? 0xdcff)).

Definition check_path (p : pystr) : option exn :=
  if has_nul p then Some (ValueError p)
  else if existsb unencodable p then Some (UnicodeEncodeError p)
  else match p with
       | [] => Some (FileNotFoundError p)
       | _ :: _ => None
       end.

(** The entry at a path; the working directory is a directory. *)
Definition node_at (w : world) (p : pystr) : option node :=
  match p with
  | [] => Some Dir
  | _ :: _ => nodes w !! p
  end.

(** [os.path.isdir(p)] *)
Definition isdir (w : world) (p : pystr) : bool :=
  match node_at w p with
  | Some Dir => true
  | _ => false
  end.

(** A new entry at [p] needs its directory to be there and writable. *)
Definition create_entry (p : pystr) (n : node) : prog world unit := λ w,
  match node_at w (dirname p) with
  | None => Raised (FileNotFoundError p) w
  | Some (File _) => Raised (NotADirectoryError p) w
  | Some Dir =>
      if decide (dirname p ∈ unwritable w) then Raised (PermissionError p) w
      else Returned tt (set_nodes (insert p n) w)
  end.

(** [os.mkdir(p)] *)
Definition mem_mkdir (p : pystr) : prog world unit := λ w,
  match check_path p with
  | Some e => Raised e w
  | None =>
      match nodes w !! p with
      | Some _ => Raised (FileExistsError p) w
      | None => create_entry p Dir w
      end
  end.

(** [os.makedirs(p, exist_ok=exist_ok)].  The path is split into head and
    tail (once more when it ends with a slash); a head that is not there is
    made first, a [FileExistsError] from that ignored, and nothing is left to
    do when the tail is a dot; then the directory itself is made, an
    [OSError] of [mkdir] ignored when [exist_ok] is set and the directory is
    there.  A head is shorter than its path, so the length of the path is
    fuel enough. *)
Fixpoint mem_makedirs_rec (fuel : nat) (p : pystr) (exist_ok : bool) : prog world unit := λ w,
  let '(head, tail) :=
    match basename p with
    | [] => (dirname (dirname p), basename (dirname p))
    | _ :: _ => (dirname p, basename p)
    end in
  let parents : outcome world bool :=
    match fuel, head, tail with
    | S f, _ :: _, _ :: _ =>
        match node_at w head with
        | Some _ => Returned false w
        | None =>
            match mem_makedirs_rec f head exist_ok w with
            | Returned _ w' | Raised (FileExistsError _) w' =>
                Returned (bool_decide (tail = py ".")) w'
            | Raised e w' => Raised e w'
            end
        end
    | _, _, _ => Returned false w
    end in
  match parents with
  | Raised e w' => Raised e w'
  | Returned true w1 => Returned tt w1
  | Returned false w1 =>
      match mem_mkdir p w1 with
      | Returned _ w2 => Returned tt w2
      | Raised e w2 =>
          if is_oserror e && exist_ok && isdir w2 p then Returned tt w2 else Raised e w2
      end
  end.

(** [os.makedirs], with the fuel it needs. *)
Definition mem_makedirs (p : pystr) (exist_ok : bool) : prog world unit :=
  mem_makedirs_rec (length p) p exist_ok.

(** [open(p, "w")]: a directory cannot be opened; a file that is there is
    emptied, and its room given back; one that is not is created.  The
    limits a file system puts on the length of a name are not part of this
    world. *)
Definition mem_open_w (p : pystr) : prog world unit := λ w,
  match check_path p with
  | Some e => Raised e w
  | None =>
      match nodes w !! p with
      | Some Dir => Raised (IsADirectoryError p) w
      | Some (File old) =>
          if decide (p ∈ unwritable w) then Raised (PermissionError p) w
          else Returned tt (set_free_space (free_space w + N.of_nat (length old))
                              (set_nodes (insert p (File [])) w))
      | None => create_entry p (File []) w
      end
  end.

(** Writing appends to what the open file holds, as far as there is room;
    when the room runs out, the part that fits has been written and the
    write raises. *)
Definition mem_write_text (p text : pystr) : prog world unit := λ w,
  match nodes w !! p with
  | Some (File old) =>
      let n := N.of_nat (length text) in
      if n <=? free_space w
      then Returned tt (set_free_space (free_space w - n)
                          (set_nodes (insert p (File (old ++ text))) w))
      else Raised (OSError ENOSPC)
             (set_free_space 0
                (set_nodes (insert p (File (old ++ take (N.to_nat (free_space w)) text))) w))
  | _ => Raised (ValueError p) w
  end.

(** The calls of [save_order] in this world; reading the clock does not fail. *)
#[export] Instance posix_world : OS world := {
  utcnow := λ w, Returned (clock w) w;
  makedirs := mem_makedirs;
  open_w := mem_open_w;
  write_text := mem_write_text
}.

(** The text of the file at a path, if a file is there. *)
Definition read_text (w : world) (p : pystr) : option pystr :=
  match nodes w !! p with
  | Some (File text) => Some text
  | _ => None
  end.

(** The directory of the orders. *)
Definition ORDERS : pystr := py "orders".

(** The tool would be idempotent if a second run with the arguments of the
    first, whenever it is made, left the entries of the file system as the
    first run left them. *)
Definition save_order_idempotent : Prop :=
  ∀ (w w1 w2 : world) (t2 : datetime) (drinkType size milk : pystr) (extras : list pystr)
    (name : pystr) (r1 r2 : pyobj),
    save_order drinkType size milk extras name w = Returned r1 w1 →
    save_order drinkType size milk extras name (set_clock t2 w1) = Returned r2 w2 →
    nodes w2 = nodes w1.

(** ** The session bootstrap

    The LiveKit session is embedded by what is asked of it: the trace of the
    session's start and of the replies requested, in the order of the
    requests.  Starting a session with an agent makes the agent the active
    one, and the framework then runs the agent's [on_enter] hook as a task of
    the event loop; a task runs when the program next yields to the loop at an
    [await], or at the latest when the entry point has returned.  Whether an
    [await] yields before the task has run is the loop's choice, a boolean
    here. *)

(** [rtc.ParticipantKind] *)
Inductive participant_kind : Type :=
| PARTICIPANT_KIND_STANDARD
| PARTICIPANT_KIND_INGRESS
| PARTICIPANT_KIND_EGRESS
| PARTICIPANT_KIND_SIP
| PARTICIPANT_KIND_AGENT.

(** The two noise-cancellation filters of the plugin. *)
Inductive noise_filter : Type :=
| BVC
| BVCTelephony.

(** The [noise_cancellation] option of the audio input. *)
Definition noise_cancellation (kind : participant_kind) : noise_filter :=
  match kind with
  | PARTICIPANT_KIND_SIP => BVCTelephony
  | _ => BVC
  end.

(** What the session is asked to do. *)
Inductive event : Type :=
| SessionStarted
| ReplyRequested (instructions : pystr).

(** A hook of an agent, by what it adds to the trace. *)
Definition hook : Type := list event → list event.

(** The trace so far and the hooks scheduled and not yet run. *)
Record session := mk_session {
  trace : list event;
  pending : list hook
}.

(** An agent, by its entry hook. *)
Record Agent := mk_agent {
  on_enter : hook
}.

(** [session.generate_reply(instructions=...)], as a hook sees it and as the
    entry point does. *)
Definition request_reply (instructions : pystr) : hook :=
  λ tr, tr ++ [ReplyRequested instructions].

Definition generate_reply (instructions : pystr) (s : session) : session :=
  mk_session (request_reply instructions (trace s)) (pending s).

(** [session.start(agent=agent, ...)] *)
Definition session_start (agent : Agent) (s : session) : session :=
  mk_session (trace s ++ [SessionStarted]) (pending s ++ [on_enter agent]).

(** The event loop runs the tasks that wait. *)
Definition run_pending (s : session) : session :=
  mk_session (fold_left (λ tr h, h tr) (pending s) (trace s)) [].

(** An [await]: the loop runs the waiting tasks if the program yields to it. *)
Definition await (yields : bool) (s : session) : session :=
  if yields then run_pending s else s.

(** [BaristaAgent.on_enter] *)
Definition BaristaAgent : Agent :=
  mk_agent (request_reply
              (py "Greet the user as a barista at Moonbeam Coffee and ask "
               ++ py "what they would like to order.")).

(** [my_agent(ctx)], and the loop going on after it has returned. *)
Definition my_agent (yields_at_start yields_at_reply : bool) : session :=
  let session := mk_session [] [] in
  let session := await yields_at_start (session_start BaristaAgent session) in
  let session :=
    await yields_at_reply
      (generate_reply
         (py "Greet the user as a coffee shop barista at Moonbeam Coffee. "
          ++ py "Ask what they'd like to order.") session) in
  run_pending session.

(** The instructions of the replies requested, in their order. *)
Definition reply_requests (tr : list event) : list pystr :=
  flat_map (λ e, match e with
                 | ReplyRequested instructions => [instructions]
                 | SessionStarted => []
                 end) tr.

(** The two instructions, as single literals. *)
Definition bootstrap_greeting : pystr :=
  py "Greet the user as a coffee shop barista at Moonbeam Coffee. Ask what they'd like to order.".

Definition on_enter_greeting : pystr :=
  py "Greet the user as a barista at Moonbeam Coffee and ask what they would like to order.".

(** ** Scenarios *)

(** A reading of the clock. *)
Definition sample_time : datetime := mk_datetime 2025 11 24 9 30 5 123456.

(** An empty working directory on a device with room. *)
Definition fresh_world : world := mk_world sample_time ∅ ∅ 4096.

(** The run of the end-to-end scenario in the fresh world, its world and its
    result. *)
Definition sam_run : outcome world pyobj :=
  save_order (py "latte") (py "medium") (py "oat") [py "extra shot"] (py "Sam") fresh_world.

Definition sam_world : world := world_after sam_run.

Definition sam_result : pyobj :=
  PDict [(py "status", PStr (py "saved"));
         (py "filename", PStr (py "orders/20251124-093005_Sam.json"));
         (py "message", PStr (py "Saved order for Sam: medium latte with oat milk and extra shot."));
         (py "order", PDict [(py "drinkType", PStr (py "latte")); (py "size", PStr (py "medium"));
                             (py "milk", PStr (py "oat"));
                             (py "extras", PList [PStr (py "extra shot")]);
                             (py "name", PStr (py "Sam"))])].

(** The text of Sam's file: one entry a line, indented by two spaces, the
    extras by four. *)
Definition sam_text : pystr :=
  py "{" ++ [NEWLINE]
  ++ py "  " ++ quoted (py "drinkType") ++ py ": " ++ quoted (py "latte") ++ py "," ++ [NEWLINE]
  ++ py "  " ++ quoted (py "size") ++ py ": " ++ quoted (py "medium") ++ py "," ++ [NEWLINE]
  ++ py "  " ++ quoted (py "milk") ++ py ": " ++ quoted (py "oat") ++ py "," ++ [NEWLINE]
  ++ py "  " ++ quoted (py "extras") ++ py ": [" ++ [NEWLINE]
  ++ py "    " ++ quoted (py "extra shot") ++ [NEWLINE]
  ++ py "  ]," ++ [NEWLINE]
  ++ py "  " ++ quoted (py "name") ++ py ": " ++ quoted (py "Sam") ++ [NEWLINE]
  ++ py "}".

(** The order of the scenario as a dictionary. *)
Definition sam_order : pyobj :=
  PDict [(py "drinkType", PStr (py "latte")); (py "size", PStr (py "medium"));
         (py "milk", PStr (py "oat")); (py "extras", PList [PStr (py "extra shot")]);
         (py "name", PStr (py "Sam"))].

(** A later reading within the same second, and another order for Sam saved
    then. *)
Definition sam_time_later : datetime := mk_datetime 2025 11 24 9 30 5 999999.

Definition sam_rerun : outcome world pyobj :=
  save_order (py "mocha") (py "large") (py "soy") [] (py "Sam") (set_clock sam_time_later sam_world).

Definition sam_rerun_result : pyobj :=
  order_result sam_time_later (py "mocha") (py "large") (py "soy") [] (py "Sam").

(** A string of two code points, a high surrogate and a low one, and the
    run that saves an order with it as the milk. *)
Definition split_pair : pystr := [0xD83D; 0xDE00].

Definition split_pair_run : outcome world pyobj :=
  save_order (py "latte") (py "medium") split_pair [] (py "Sam") fresh_world.

(** ** The decoder at work on a dumped text *)

(** Whether the text after a [\uXXXX] escape goes on with one that the
    decoder takes for a low surrogate (or fails on). *)
Definition low_escape_ahead (s : pystr) : bool :=
  match s with
  | b1 :: u1 :: s4 =>
      (b1 =? BACKSLASH) && (u1 =? 117)
      && match s4 with
         | a2 :: b2 :: c2 :: d2 :: _ =>
             match decode_uXXXX a2 b2 c2 d2 with
             | Some uni2 => is_low_surrogate uni2
             | None => true
             end
         | _ => true
         end
  | _ => false
  end.

(** Calls the decoder nests to read a value back. *)
Fixpoint cost (v : pyobj) : nat :=
  match v with
  | PStr _ => 1%nat
  | PList items => S (fold_right (λ x acc, S (cost x + acc)%nat) 0%nat items)
  | PDict fields => S (fold_right (λ kv acc, S (cost (snd kv) + acc)%nat) 0%nat fields)
  end.

(** The text of a container's items from the first one on: the items with
    [sep] between them, then [close]. *)
Fixpoint items_text (close sep x : pystr) (more : list pystr) : pystr :=
  x ++ match more with
       | [] => close
       | y :: more' => sep ++ items_text close sep y more'
       end.

(** The first character of a dumped value. *)
Definition opening (c : code_point) : Prop := c = QUOTE ∨ c = LBRACKET ∨ c = LBRACE.

(** The hypothesis of the induction on a value, for the values one level
    further in. *)
Definition reads_back (indent level : nat) (v : pyobj) : Prop :=
  ∀ (f : nat) (rest : pystr),
    (cost v ≤ f)%nat → scan_once f (iterencode indent (S level) v ++ rest) = Some (v, rest).

(** The text of one entry of a dictionary. *)
Definition field_text (indent level : nat) (kv : pystr * pyobj) : pystr :=
  encode_basestring_ascii (fst kv) ++ [COLON; SPACE] ++ iterencode indent (S level) (snd kv).

(** ** Vocabulary of the further properties *)

(** [s.count(c)] for a character [c] *)
Fixpoint count_char (c : code_point) (s : pystr) : nat :=
  match s with
  | [] => 0%nat
  | x :: s' => (if x =? c then S (count_char c s') else count_char c s')
  end.


(** A printable ASCII character or a line feed. *)
Definition ascii_text_char (c : code_point) : Prop := c = NEWLINE ∨ 32 <= c <= 126.

(** An order in other scripts: the name Zoë, a milk written as an emoji. *)
Definition zoe_run : outcome world pyobj :=
  save_order (py "latte") (py "medium") [0x1F600] [[0x4E2D; 0x6587]] [90; 111; 235] fresh_world.




(** A Unicode scalar value: a code point that is not a surrogate. *)
Definition scalar_value (c : code_point) : Prop := c < 0xD800 ∨ (0xDFFF < c ∧ c < 0x110000).



(** Sam's order is there; an order for Sam is saved a second later. *)
Definition sam_time_next : datetime := mk_datetime 2025 11 24 9 30 6 0.

Definition next_run : outcome world pyobj :=
  save_order (py "mocha") (py "large") (py "soy") [] (py "Sam") (set_clock sam_time_next sam_world).

(** The directory of the orders cannot be made: a regular file has its name. *)
Definition blocked_world : world :=
  mk_world sample_time {[ORDERS := File (py "notes")]} ∅ 4096.

(** * Properties *)

(** Linear arithmetic with the quotients and remainders as atoms. *)
Ltac atoms_lia :=
  repeat match goal with
         | |- context [N.div ?a ?b] =>
             let q := fresh "q" in set (q := N.div a b) in *; clearbody q
         | |- context [N.modulo ?a ?b] =>
             let r := fresh "r" in set (r := N.modulo a b) in *; clearbody r
         end;
  lia.

(** ** The model on samples *)

Example replace_jane : str_replace (py "Jane Doe") (py " ") (py "_") = py "Jane_Doe".
Proof. reflexivity. Qed.

Example strftime_sample :
  strftime (py "%Y%m%d-%H%M%S") (mk_datetime 2025 3 9 7 5 59 123456) = py "20250309-070559".
Proof. reflexivity. Qed.

(** The year is printed as the C library prints it, with no padding. *)
Example strftime_year_999 :
  strftime (py "%Y%m%d-%H%M%S") (mk_datetime 999 1 2 3 4 5 0) = py "9990102-030405".
Proof. reflexivity. Qed.

Example decimal_samples :
  decimal 0 = py "0" ∧ decimal 7 = py "7" ∧ decimal 10 = py "10" ∧ decimal 999 = py "999"
  ∧ decimal 1000 = py "1000" ∧ decimal 2025 = py "2025" ∧ decimal 9999 = py "9999".
Proof. repeat split; reflexivity. Qed.

Example dump_sample :
  json_dump (PDict [(py "a", PStr (py "x y")); (py "b", PList [PStr [233]; PStr [0x1F600]]);
                    (py "c", PList [])])
  = [LBRACE; NEWLINE] ++ py "  " ++ [QUOTE] ++ py "a" ++ [QUOTE] ++ py ": " ++ [QUOTE] ++ py "x y"
    ++ [QUOTE; COMMA; NEWLINE] ++ py "  " ++ [QUOTE] ++ py "b" ++ [QUOTE] ++ py ": [" ++ [NEWLINE]
    ++ py "    " ++ [QUOTE] ++ py "\u00e9" ++ [QUOTE; COMMA; NEWLINE]
    ++ py "    " ++ [QUOTE] ++ py "\ud83d\ude00" ++ [QUOTE; NEWLINE] ++ py "  ]," ++ [NEWLINE]
    ++ py "  " ++ [QUOTE] ++ py "c" ++ [QUOTE] ++ py ": []" ++ [NEWLINE] ++ py "}".
Proof. reflexivity. Qed.

Example loads_sample :
  json_loads (json_dump (PDict [(py "a", PStr (py "x y")); (py "b", PList [PStr [233]; PStr [0x1F600]]);
                                (py "c", PList [])]))
  = Some (PDict [(py "a", PStr (py "x y")); (py "b", PList [PStr [233]; PStr [0x1F600]]);
                 (py "c", PList [])]).
Proof. vm_compute. reflexivity. Qed.

Example loads_surrogates :
  json_loads (json_dump (PStr [0xD83D; 0xDE00])) = Some (PStr [0x1F600]).
Proof. vm_compute. reflexivity. Qed.

Example loads_duplicate_key :
  json_loads ([LBRACE; QUOTE; 97; QUOTE; COLON; QUOTE; 49; QUOTE; COMMA; QUOTE; 98; QUOTE; COLON;
               QUOTE; QUOTE; COMMA; SPACE; QUOTE; 97; QUOTE; COLON; LBRACKET; SPACE; RBRACKET;
               RBRACE; NEWLINE])
  = Some (PDict [(py "a", PList []); (py "b", PStr [])]).
Proof. vm_compute. reflexivity. Qed.

Example save_sam :
  match save_order (py "latte") (py "medium") (py "oat") [py "extra shot"] (py "Sam") fresh_world with
  | Returned r w =>
      r = PDict [(py "status", PStr (py "saved"));
                 (py "filename", PStr (py "orders/20251124-093005_Sam.json"));
                 (py "message", PStr (py "Saved order for Sam: medium latte with oat milk and extra shot."));
                 (py "order", PDict [(py "drinkType", PStr (py "latte")); (py "size", PStr (py "medium"));
                                     (py "milk", PStr (py "oat"));
                                     (py "extras", PList [PStr (py "extra shot")]);
                                     (py "name", PStr (py "Sam"))])]
      ∧ (json_loads <$> read_text w (py "orders/20251124-093005_Sam.json"))
        = Some (Some (PDict [(py "drinkType", PStr (py "latte")); (py "size", PStr (py "medium"));
                             (py "milk", PStr (py "oat"));
                             (py "extras", PList [PStr (py "extra shot")]);
                             (py "name", PStr (py "Sam"))]))
      ∧ isdir w (py "orders") = true
  | Raised _ _ => False
  end.
Proof. vm_compute. auto. Qed.

Lemma sam_run_returns : sam_run = Returned sam_result sam_world.
Proof. vm_compute. reflexivity. Qed.

(** ** The file-name token *)

Lemma startswith_single (a c : code_point) (s : pystr) :
  startswith [a] (c :: s) = (a =? c).
Proof. simpl. apply andb_true_r. Qed.

(** Replacing a one-character pattern by a one-character string is a map. *)
Lemma str_replace_char (a b : code_point) (s : pystr) :
  str_replace s [a] [b] = map (λ c, if c =? a then b else c) s.
Proof.
  unfold str_replace. induction s as [|c s IH]; [reflexivity|].
  cbn [replace_from map]. rewrite startswith_single, (N.eqb_sym a c).
  destruct (c =? a); cbn [length Nat.sub app]; now rewrite IH.
Qed.

Lemma safe_name_of_eq (name : pystr) :
  safe_name_of name =
  match name with
  | [] => py "guest"
  | _ :: _ => map (λ c, if c =? SPACE then UNDERSCORE else c) name
  end.
Proof.
  unfold safe_name_of. change (py " ") with [SPACE]. change (py "_") with [UNDERSCORE].
  rewrite str_replace_char. now destruct name.
Qed.

(** C3: the file-name token is "guest" for the empty name; for any other
    name it has the name's length, an underscore wherever the name has a
    space and the name's own character everywhere else, whatever that
    character is (a path separator included); "Jane Doe" gives
    "Jane_Doe". *)
Theorem safe_name_token (name : pystr) :
  safe_name_of name
  = match name with
    | [] => py "guest"
    | _ :: _ => map (λ c, if c =? SPACE then UNDERSCORE else c) name
    end
  ∧ (∀ c rest i,
        safe_name_of (c :: rest) !! i
        = (λ c, if c =? SPACE then UNDERSCORE else c) <$> (c :: rest) !! i)
  ∧ safe_name_of (py "a/../b c") = py "a/../b_c"
  ∧ safe_name_of (py "Jane Doe") = py "Jane_Doe".
Proof.
  split; [apply safe_name_of_eq|]. split; [|split; reflexivity].
  intros c rest i. rewrite safe_name_of_eq. apply list_lookup_fmap.
Qed.

Lemma map_repeat_space (k : nat) :
  map (λ c, if c =? SPACE then UNDERSCORE else c) (repeat SPACE k) = repeat UNDERSCORE k.
Proof. induction k as [|k IH]; [reflexivity|]. cbn [repeat map]. now rewrite IH. Qed.

(** C10: a name made of spaces only is not empty, so it is not replaced by
    "guest": its token is as many underscores. *)
Theorem spaces_only_token (n : nat) :
  safe_name_of (repeat SPACE (S n)) = repeat UNDERSCORE (S n)
  ∧ safe_name_of (repeat SPACE (S n)) ≠ py "guest"
  ∧ safe_name_of (py " ") = py "_".
Proof.
  assert (E : safe_name_of (repeat SPACE (S n)) = repeat UNDERSCORE (S n)).
  { rewrite safe_name_of_eq. rewrite <- map_repeat_space. reflexivity. }
  split; [exact E|]. split; [|reflexivity].
  rewrite E. cbn [repeat]. discriminate.
Qed.

(** ** The tool, in any world *)

Section SaveOrderFacts.
Context {W : Type} `{OS W}.
Implicit Types (w : W) (drinkType size milk name : pystr) (extras : list pystr).

(** The tool returns exactly when its four calls return one after the
    other, and then in the world the write left. *)
Lemma save_order_returned drinkType size milk extras name w r w' :
  save_order drinkType size milk extras name w = Returned r w' ↔
  ∃ w1 now w2 w3,
    makedirs (py "orders") true w = Returned tt w1
    ∧ utcnow w1 = Returned now w2
    ∧ open_w (order_filename now name) w2 = Returned tt w3
    ∧ write_text (order_filename now name) (order_text drinkType size milk extras name) w3
      = Returned tt w'
    ∧ r = order_result now drinkType size milk extras name.
Proof.
  unfold save_order, bind, ret, order_filename, order_text, order_result.
  split.
  - destruct (makedirs _ _ w) as [[] w1|] eqn:E1; [|discriminate].
    destruct (utcnow w1) as [now w2|] eqn:E2; [|discriminate].
    destruct (open_w _ w2) as [[] w3|] eqn:E3; [|discriminate].
    destruct (write_text _ _ w3) as [[] w4|] eqn:E4; [|discriminate].
    intros [= <- <-]. exists w1, now, w2, w3. by rewrite E3, E4.
  - intros (w1 & now & w2 & w3 & -> & -> & -> & -> & ->). reflexivity.
Qed.

(** The tool raises exactly what its first failing call raises, and leaves
    the world that call left. *)
Lemma save_order_raised drinkType size milk extras name w x w' :
  save_order drinkType size milk extras name w = Raised x w' ↔
  makedirs (py "orders") true w = Raised x w'
  ∨ ∃ w1, makedirs (py "orders") true w = Returned tt w1
      ∧ (utcnow w1 = Raised x w'
         ∨ ∃ now w2, utcnow w1 = Returned now w2
             ∧ (open_w (order_filename now name) w2 = Raised x w'
                ∨ ∃ w3, open_w (order_filename now name) w2 = Returned tt w3
                    ∧ write_text (order_filename now name)
                        (order_text drinkType size milk extras name) w3 = Raised x w')).
Proof.
  unfold save_order, bind, ret, order_filename, order_text.
  destruct (makedirs _ _ w) as [[] w1|x1 w1] eqn:E1.
  2:{ split; [intros [= <- <-]; by left|].
      intros [[= <- <-]|(? & [=] & _)]; reflexivity. }
  destruct (utcnow w1) as [now w2|x2 w2] eqn:E2.
  2:{ split; [intros [= <- <-]; right; exists w1; split; [done|by left]|].
      intros [[=]|(? & [= <-] & [?|(? & ? & ? & _)])]; congruence. }
  destruct (open_w _ w2) as [[] w3|x3 w3] eqn:E3.
  2:{ split.
      - intros [= <- <-]. right. exists w1. split; [done|]. right. exists now, w2.
        split; [done|by left].
      - intros [[=]|(? & [= <-] & [?|(? & ? & ? & [?|(? & ? & _)])])]; congruence. }
  destruct (write_text _ _ w3) as [[] w4|x4 w4] eqn:E4.
  - split; [discriminate|].
    intros [[=]|(? & [= <-] & [?|(? & ? & ? & [?|(? & ? & ?)])])]; congruence.
  - split.
    + intros [= <- <-]. right. exists w1. split; [done|]. right. exists now, w2.
      split; [done|]. right. exists w3. by rewrite E4.
    + intros [[=]|(? & [= <-] & [?|(? & ? & ? & [?|(? & ? & ?)])])]; congruence.
Qed.
End SaveOrderFacts.

(** ** Time stamps and file names *)

Lemma timestamp_of_eq (t : datetime) :
  timestamp_of t
  = decimal (year t) ++ zdigits 2 (month t) ++ zdigits 2 (day t) ++ py "-"
    ++ zdigits 2 (hour t) ++ zdigits 2 (minute t) ++ zdigits 2 (second t).
Proof. reflexivity. Qed.

Lemma digit_is_digit (n : N) : is_digit (48 + n mod 10).
Proof.
  unfold is_digit. pose proof (N.mod_upper_bound n 10 ltac:(lia)) as B. revert B.
  generalize (n mod 10). lia.
Qed.

Lemma decimal_fuel_digits (f : nat) (n : N) : Forall is_digit (decimal_fuel f n).
Proof.
  revert n. induction f as [|f IH]; intros n; [constructor|].
  cbn [decimal_fuel]. apply Forall_app. split.
  - destruct (n <? 10); [constructor|apply IH].
  - constructor; [apply digit_is_digit|constructor].
Qed.

Lemma decimal_digits (n : N) : Forall is_digit (decimal n).
Proof. apply decimal_fuel_digits. Qed.

(** The year is printed with one digit at least. *)
Lemma decimal_cons (n : N) : ∃ c s, decimal n = c :: s ∧ is_digit c.
Proof.
  pose proof (decimal_digits n) as Hd. unfold decimal in *. cbn [decimal_fuel] in *.
  destruct (if n <? 10 then [] else decimal_fuel _ _) as [|c s].
  - eexists _, _. split; [reflexivity|]. by inversion Hd.
  - exists c, (s ++ [48 + n mod 10]). split; [reflexivity|]. by inversion Hd.
Qed.

Lemma pow10_succ (w : nat) : 10 ^ N.of_nat (S w) = 10 * 10 ^ N.of_nat w.
Proof. rewrite Nat2N.inj_succ, N.pow_succ_r by lia. reflexivity. Qed.

Lemma div10_bound (w : nat) (n : N) : n < 10 ^ N.of_nat (S w) → n / 10 < 10 ^ N.of_nat w.
Proof. rewrite pow10_succ. intros Hn. apply N.Div0.div_lt_upper_bound. lia. Qed.

(** A number of [k + 1] digits is printed as its [k + 1] low digits. *)
Lemma decimal_fuel_zdigits (k f : nat) (n : N) :
  (k < f)%nat → n < 10 ^ N.of_nat (S k) → (k ≠ 0%nat → 10 ^ N.of_nat k <= n) →
  decimal_fuel f n = zdigits (S k) n.
Proof.
  revert f n. induction k as [|k IH]; intros [|f] n Hf Hn Hlow; try lia.
  - cbn [decimal_fuel zdigits].
    assert ((n <? 10) = true) as -> by (apply N.ltb_lt; cbn in Hn; lia). reflexivity.
  - change (zdigits (S (S k)) n) with (zdigits (S k) (n / 10) ++ [48 + n mod 10]).
    cbn [decimal_fuel]. specialize (Hlow ltac:(lia)). rewrite pow10_succ in Hlow.
    assert (Hpos : 10 ^ N.of_nat k ≠ 0) by (apply N.pow_nonzero; lia).
    assert ((n <? 10) = false) as ->.
    { apply N.ltb_ge. revert Hlow Hpos. generalize (10 ^ N.of_nat k). lia. }
    rewrite (IH f (n / 10)); [reflexivity|lia|by apply div10_bound|].
    intros _. apply N.div_le_lower_bound; [lia|exact Hlow].
Qed.

Lemma decimal_zdigits (k : nat) (n : N) :
  n < 10 ^ N.of_nat (S k) → (k ≠ 0%nat → 10 ^ N.of_nat k <= n) →
  decimal n = zdigits (S k) n.
Proof.
  intros Hn Hlow. apply decimal_fuel_zdigits; [|done..].
  destruct k as [|k]; [lia|]. specialize (Hlow ltac:(lia)).
  assert (Hpos : 10 ^ N.of_nat (S k) ≠ 0) by (apply N.pow_nonzero; lia).
  assert (H2 : 2 ^ N.of_nat (S k) <= n).
  { etrans; [|exact Hlow]. apply N.pow_le_mono_l. lia. }
  apply N.log2_le_pow2 in H2; lia.
Qed.

(** A year of four digits is printed as the padded conversions print. *)
Lemma decimal_year (y : N) : 1000 <= y <= 9999 → decimal y = zdigits 4 y.
Proof. intros Hy. apply (decimal_zdigits 3); [cbn; lia|intros _; cbn; lia]. Qed.

(** The year of a [datetime] is printed as its low digits, one to four. *)
Lemma decimal_width (y : N) :
  1 <= y <= 9999 → ∃ k, decimal y = zdigits (S k) y ∧ y < 10 ^ N.of_nat (S k).
Proof.
  intros Hy.
  destruct (N.ltb_spec y 10);
    [exists 0%nat
    |destruct (N.ltb_spec y 100);
     [exists 1%nat|destruct (N.ltb_spec y 1000); [exists 2%nat|exists 3%nat]]];
    (split; [apply decimal_zdigits; [cbn; lia|intros _; cbn; lia]|cbn; lia]).
Qed.

Lemma timestamp_of_year (t : datetime) :
  1000 <= year t <= 9999 →
  timestamp_of t
  = zdigits 4 (year t) ++ zdigits 2 (month t) ++ zdigits 2 (day t) ++ py "-"
    ++ zdigits 2 (hour t) ++ zdigits 2 (minute t) ++ zdigits 2 (second t).
Proof. intros Hy. by rewrite timestamp_of_eq, decimal_year. Qed.

Lemma length_zdigits (w : nat) (n : N) : length (zdigits w n) = w.
Proof.
  revert n. induction w as [|w IH]; intros n; [reflexivity|].
  cbn [zdigits]. rewrite length_app, IH. cbn. lia.
Qed.

Lemma order_filename_eq (now : datetime) (name : pystr) :
  order_filename now name
  = py "orders/" ++ timestamp_of now ++ py "_" ++ safe_name_of name ++ py ".json".
Proof.
  unfold order_filename, path_join. rewrite timestamp_of_eq.
  destruct (decimal_cons (year now)) as (c & s & -> & Hc).
  cbn [app startswith].
  assert (E : (SLASH =? c) = false)
    by (apply N.eqb_neq; unfold SLASH; unfold is_digit in Hc; lia).
  rewrite E. reflexivity.
Qed.

Lemma timestamp_same_second (t1 t2 : datetime) :
  same_second t1 t2 → timestamp_of t1 = timestamp_of t2.
Proof.
  intros (Hy & Hm & Hd & Hh & Hmi & Hs). rewrite !timestamp_of_eq.
  by rewrite Hy, Hm, Hd, Hh, Hmi, Hs.
Qed.

Lemma order_filename_not_orders (now : datetime) (name : pystr) :
  order_filename now name ≠ ORDERS.
Proof.
  rewrite order_filename_eq. discriminate.
Qed.

(** ** The directory of the orders *)

Lemma mem_mkdir_orders (w : world) :
  mem_mkdir ORDERS w
  = match nodes w !! ORDERS with
    | Some _ => Raised (FileExistsError ORDERS) w
    | None =>
        if decide ([] ∈ unwritable w) then Raised (PermissionError ORDERS) w
        else Returned tt (set_nodes (insert ORDERS Dir) w)
    end.
Proof. reflexivity. Qed.

Lemma mem_makedirs_orders (exist_ok : bool) (w : world) :
  makedirs ORDERS exist_ok w
  = match mem_mkdir ORDERS w with
    | Returned _ w2 => Returned tt w2
    | Raised e w2 =>
        if is_oserror e && exist_ok && isdir w2 ORDERS then Returned tt w2 else Raised e w2
    end.
Proof. reflexivity. Qed.

Lemma node_at_cons (w : world) (c : code_point) (p : pystr) :
  node_at w (c :: p) = nodes w !! (c :: p).
Proof. reflexivity. Qed.

Lemma isdir_orders (w : world) :
  isdir w ORDERS = match nodes w !! ORDERS with Some Dir => true | _ => false end.
Proof. reflexivity. Qed.

(** What the directory-creation call of [save_order] does, case by case. *)
Lemma makedirs_orders_cases (w : world) :
  makedirs ORDERS true w
  = match nodes w !! ORDERS with
    | Some Dir => Returned tt w
    | Some (File _) => Raised (FileExistsError ORDERS) w
    | None =>
        if decide ([] ∈ unwritable w) then Raised (PermissionError ORDERS) w
        else Returned tt (set_nodes (insert ORDERS Dir) w)
    end.
Proof.
  rewrite mem_makedirs_orders, mem_mkdir_orders.
  destruct (nodes w !! ORDERS) as [[|text]|] eqn:E.
  - cbn [is_oserror andb]. now rewrite isdir_orders, E.
  - cbn [is_oserror andb]. now rewrite isdir_orders, E.
  - destruct (decide _); [|reflexivity].
    cbn [is_oserror andb]. now rewrite isdir_orders, E.
Qed.

(** Without [exist_ok] the call fails on a directory that is there. *)
Lemma makedirs_orders_strict (w : world) :
  isdir w ORDERS = true → makedirs ORDERS false w = Raised (FileExistsError ORDERS) w.
Proof.
  rewrite isdir_orders, mem_makedirs_orders, mem_mkdir_orders.
  destruct (nodes w !! ORDERS) as [[|text]|]; [reflexivity|discriminate..].
Qed.

(** C7: the directory-creation call of [save_order] returns, changing
    nothing, when the directory [orders] is there (a call without [exist_ok]
    would raise), so that whatever a run of the tool raises in such a world
    is raised by the opening of the file or by the write; when nothing is at
    that path and the working directory is writable the call returns having
    created the directory; and whenever it returns, the directory is there
    and the same call made again returns with the world unchanged. *)
Theorem makedirs_orders_idempotent (w : world) :
  (isdir w ORDERS = true →
     makedirs ORDERS true w = Returned tt w
     ∧ makedirs ORDERS false w = Raised (FileExistsError ORDERS) w
     ∧ ∀ drinkType size milk extras name x w',
         save_order drinkType size milk extras name w = Raised x w' →
         open_w (order_filename (clock w) name) w = Raised x w'
         ∨ ∃ w3, open_w (order_filename (clock w) name) w = Returned tt w3
             ∧ write_text (order_filename (clock w) name)
                 (order_text drinkType size milk extras name) w3 = Raised x w')
  ∧ (nodes w !! ORDERS = None → [] ∉ unwritable w →
     makedirs ORDERS true w = Returned tt (set_nodes (insert ORDERS Dir) w)
     ∧ isdir (set_nodes (insert ORDERS Dir) w) ORDERS = true)
  ∧ (∀ w1, makedirs ORDERS true w = Returned tt w1 →
     isdir w1 ORDERS = true ∧ makedirs ORDERS true w1 = Returned tt w1).
Proof.
  split; [|split].
  - intros Hd.
    assert (Hm : makedirs ORDERS true w = Returned tt w).
    { rewrite makedirs_orders_cases. rewrite isdir_orders in Hd.
      by destruct (nodes w !! ORDERS) as [[|text]|]. }
    split; [exact Hm|]. split; [by apply makedirs_orders_strict|].
    intros drinkType size milk extras name x w' Hrun.
    apply save_order_raised in Hrun as [Hrun|(w1 & Hw1 & Hrun)].
    { change (py "orders") with ORDERS in Hrun. congruence. }
    change (py "orders") with ORDERS in Hw1. rewrite Hm in Hw1. injection Hw1 as <-.
    destruct Hrun as [Hrun|(now & w2 & Hnow & Hrun)]; [discriminate|].
    injection Hnow as <- <-. exact Hrun.
  - intros Hn Hw. rewrite makedirs_orders_cases, Hn.
    destruct (decide _); [done|]. split; [done|].
    rewrite isdir_orders. cbn. by rewrite lookup_insert_eq.
  - intros w1. rewrite makedirs_orders_cases.
    assert (Hk : ∀ v : world, isdir v ORDERS = true →
                 isdir v ORDERS = true ∧ makedirs ORDERS true v = Returned tt v).
    { intros v Hv. split; [done|]. rewrite makedirs_orders_cases.
      rewrite isdir_orders in Hv. by destruct (nodes v !! ORDERS) as [[|text]|]. }
    destruct (nodes w !! ORDERS) as [[|text]|] eqn:E.
    + intros [= <-]. apply Hk. by rewrite isdir_orders, E.
    + discriminate.
    + destruct (decide _); [discriminate|]. intros [= <-]. apply Hk.
      rewrite isdir_orders. cbn. by rewrite lookup_insert_eq.
Qed.

Lemma makedirs_orders_idempotent_witness :
  (isdir sam_world ORDERS = true ∧ makedirs ORDERS true sam_world = Returned tt sam_world)
  ∧ (nodes fresh_world !! ORDERS = None ∧ ([] ∉ unwritable fresh_world)
     ∧ makedirs ORDERS true fresh_world
       = Returned tt (set_nodes (insert ORDERS Dir) fresh_world))
  ∧ (makedirs ORDERS true fresh_world = Returned tt (set_nodes (insert ORDERS Dir) fresh_world)
     ∧ makedirs ORDERS true (set_nodes (insert ORDERS Dir) fresh_world)
       = Returned tt (set_nodes (insert ORDERS Dir) fresh_world)).
Proof.
  assert (H1 : isdir sam_world ORDERS = true) by (vm_compute; reflexivity).
  assert (H2 : nodes fresh_world !! ORDERS = None) by (vm_compute; reflexivity).
  assert (H3 : [] ∉ unwritable fresh_world) by (apply not_elem_of_empty).
  assert (H4 : makedirs ORDERS true fresh_world
               = Returned tt (set_nodes (insert ORDERS Dir) fresh_world))
    by (vm_compute; reflexivity).
  split; [|split].
  - split; [exact H1|]. apply (proj1 (makedirs_orders_idempotent sam_world) H1).
  - split; [exact H2|]. split; [exact H3|].
    apply (proj1 (proj2 (makedirs_orders_idempotent fresh_world)) H2 H3).
  - split; [exact H4|]. apply (proj2 (proj2 (makedirs_orders_idempotent fresh_world)) _ H4).
Defined.

Example makedirs_nested :
  ∃ w', mem_makedirs (py "a/b/c") true fresh_world = Returned tt w'
        ∧ isdir w' (py "a") = true ∧ isdir w' (py "a/b") = true
        ∧ isdir w' (py "a/b/c") = true.
Proof. eexists. vm_compute. auto. Qed.

(** ** The tool in the POSIX world *)

Lemma create_entry_returned (p : pystr) (n : node) (w w' : world) :
  create_entry p n w = Returned tt w' → w' = set_nodes (insert p n) w.
Proof.
  unfold create_entry. destruct (node_at w (dirname p)) as [[|?]|]; try discriminate.
  destruct (decide _); [discriminate|]. congruence.
Qed.

Lemma mem_open_w_returned (p : pystr) (w w' : world) :
  open_w p w = Returned tt w' →
  nodes w' = <[p := File []]> (nodes w) ∧ clock w' = clock w.
Proof.
  cbn [open_w posix_world]. unfold mem_open_w.
  destruct (check_path p); [discriminate|].
  destruct (nodes w !! p) as [[|old]|] eqn:E; [discriminate| |].
  - destruct (decide _); [discriminate|]. intros [= <-]. done.
  - intros ->%create_entry_returned. done.
Qed.

Lemma mem_write_text_returned (p text : pystr) (w w' : world) :
  write_text p text w = Returned tt w' →
  ∃ old, nodes w !! p = Some (File old)
         ∧ nodes w' = <[p := File (old ++ text)]> (nodes w) ∧ clock w' = clock w.
Proof.
  cbn [write_text posix_world]. unfold mem_write_text.
  destruct (nodes w !! p) as [[|old]|] eqn:E; try discriminate.
  destruct (_ <=? _); [|discriminate]. intros [= <-]. by exists old.
Qed.

Lemma makedirs_orders_returned (w w' : world) :
  makedirs ORDERS true w = Returned tt w' →
  nodes w' = <[ORDERS := Dir]> (nodes w) ∧ clock w' = clock w.
Proof.
  rewrite makedirs_orders_cases.
  destruct (nodes w !! ORDERS) as [[|text]|] eqn:E.
  - intros [= <-]. by rewrite insert_id.
  - discriminate.
  - destruct (decide _); [discriminate|]. by intros [= <-].
Qed.

(** A run of the tool that returns: the dictionary returned, and the file
    system it leaves, which is the one it found with the directory and the
    order's file in it. *)
Lemma save_order_posix (w w' : world) (drinkType size milk : pystr) (extras : list pystr)
    (name : pystr) (r : pyobj) :
  save_order drinkType size milk extras name w = Returned r w' →
  r = order_result (clock w) drinkType size milk extras name
  ∧ nodes w' = <[order_filename (clock w) name := File (order_text drinkType size milk extras name)]>
                 (<[ORDERS := Dir]> (nodes w))
  ∧ clock w' = clock w.
Proof.
  intros (w1 & now & w2 & w3 & H1 & H2 & H3 & H4 & ->)%save_order_returned.
  apply makedirs_orders_returned in H1 as [N1 C1].
  injection H2 as <- <-.
  apply mem_open_w_returned in H3 as [N3 C3].
  apply mem_write_text_returned in H4 as (old & L & N4 & C4).
  rewrite N3, lookup_insert_eq in L. injection L as <-.
  rewrite C1 in N3, N4 |- *. split; [done|]. split; [|by rewrite C4, C3].
  rewrite N4, N3, insert_insert_eq, N1. done.
Qed.

Lemma save_order_file_present (w w' : world) (drinkType size milk : pystr) (extras : list pystr)
    (name : pystr) (r : pyobj) :
  save_order drinkType size milk extras name w = Returned r w' →
  read_text w' (order_filename (clock w) name) = Some (order_text drinkType size milk extras name).
Proof.
  intros (_ & N & _)%save_order_posix. unfold read_text. by rewrite N, lookup_insert_eq.
Qed.

(** C8: in any world the tool returns exactly when its calls to the
    operating system return one after the other, and then in the world the
    write left; it raises exactly what its first failing call raises, in the
    world that call left, so nothing is caught, tried again or replaced.
    In the POSIX world a run that returns leaves the order's text in the file
    whose name it returns. *)
Theorem save_order_writes_before_returning_and_propagates :
  (∀ (W : Type) (os : OS W) (drinkType size milk : pystr) (extras : list pystr)
     (name : pystr) (w : W),
      (∀ r w',
          save_order drinkType size milk extras name w = Returned r w' ↔
          ∃ w1 now w2 w3,
            makedirs (py "orders") true w = Returned tt w1
            ∧ utcnow w1 = Returned now w2
            ∧ open_w (order_filename now name) w2 = Returned tt w3
            ∧ write_text (order_filename now name)
                (order_text drinkType size milk extras name) w3 = Returned tt w'
            ∧ r = order_result now drinkType size milk extras name)
      ∧ (∀ x w',
          save_order drinkType size milk extras name w = Raised x w' ↔
          makedirs (py "orders") true w = Raised x w'
          ∨ ∃ w1, makedirs (py "orders") true w = Returned tt w1
              ∧ (utcnow w1 = Raised x w'
                 ∨ ∃ now w2, utcnow w1 = Returned now w2
                     ∧ (open_w (order_filename now name) w2 = Raised x w'
                        ∨ ∃ w3, open_w (order_filename now name) w2 = Returned tt w3
                            ∧ write_text (order_filename now name)
                                (order_text drinkType size milk extras name) w3
                              = Raised x w'))))
  ∧ (∀ (w w' : world) (drinkType size milk : pystr) (extras : list pystr) (name : pystr)
       (r : pyobj),
        save_order drinkType size milk extras name w = Returned r w' →
        dict_get (py "filename") r = Some (PStr (order_filename (clock w) name))
        ∧ read_text w' (order_filename (clock w) name)
          = Some (json_dump (asdict (mk_order drinkType size milk extras name)))).
Proof.
  split.
  - intros W os drinkType size milk extras name w. split.
    + intros r w'. apply save_order_returned.
    + intros x w'. apply save_order_raised.
  - intros w w' drinkType size milk extras name r Hrun. split.
    + apply save_order_posix in Hrun as (-> & _). reflexivity.
    + by eapply save_order_file_present.
Qed.

Lemma save_order_writes_before_returning_and_propagates_witness :
  save_order (py "latte") (py "medium") (py "oat") [py "extra shot"] (py "Sam") fresh_world
  = Returned sam_result sam_world
  ∧ dict_get (py "filename") sam_result
    = Some (PStr (order_filename (clock fresh_world) (py "Sam")))
  ∧ read_text sam_world (order_filename (clock fresh_world) (py "Sam"))
    = Some (json_dump (asdict (mk_order (py "latte") (py "medium") (py "oat") [py "extra shot"]
                                 (py "Sam")))).
Proof.
  split; [vm_compute; reflexivity|].
  apply (proj2 save_order_writes_before_returning_and_propagates fresh_world sam_world
           (py "latte") (py "medium") (py "oat") [py "extra shot"] (py "Sam") sam_result).
  vm_compute; reflexivity.
Defined.

(** The three failures the specification names, each raised by the tool as
    the failing call raised it. *)
Example save_permission_denied :
  returned (save_order (py "latte") (py "medium") (py "oat") [] (py "Sam")
              (mk_world sample_time {[ORDERS := Dir]} {[ORDERS]} 4096)) = None
  ∧ save_order (py "latte") (py "medium") (py "oat") [] (py "Sam")
      (mk_world sample_time {[ORDERS := Dir]} {[ORDERS]} 4096)
    = Raised (PermissionError (py "orders/20251124-093005_Sam.json"))
        (mk_world sample_time {[ORDERS := Dir]} {[ORDERS]} 4096).
Proof. vm_compute. auto. Qed.

Example save_disk_full :
  ∃ w', save_order (py "latte") (py "medium") (py "oat") [] (py "Sam")
          (mk_world sample_time ∅ ∅ 10)
        = Raised (OSError ENOSPC) w'
        ∧ read_text w' (py "orders/20251124-093005_Sam.json")
          = Some (take 10 (order_text (py "latte") (py "medium") (py "oat") [] (py "Sam"))).
Proof. eexists. vm_compute. auto. Qed.

Example save_invalid_path :
  ∃ w', save_order (py "latte") (py "medium") (py "oat") [] (py "a/b") fresh_world
        = Raised (FileNotFoundError (py "orders/20251124-093005_a/b.json")) w'.
Proof. eexists. vm_compute. reflexivity. Qed.

(** ** The summary message *)

Lemma str_join_cons (sep x : pystr) (rest : list pystr) :
  str_join sep (x :: rest) = x ++ flat_map (λ y, sep ++ y) rest.
Proof.
  revert x. induction rest as [|y rest IH]; intros x.
  - cbn. by rewrite app_nil_r.
  - change (str_join sep (x :: y :: rest)) with (x ++ sep ++ str_join sep (y :: rest)).
    rewrite IH. cbn [flat_map]. by rewrite <- app_assoc.
Qed.

(** C5: the message a returning run gives ends with the milk clause and a
    full stop when there are no extras; with extras it goes on, after that
    clause, with " and ", the first extra, and every further extra after a
    comma and a space, then the full stop. *)
Theorem save_order_message {W : Type} `{OS W} (drinkType size milk : pystr)
    (extras : list pystr) (name : pystr) (w w' : W) (r : pyobj) :
  save_order drinkType size milk extras name w = Returned r w' →
  dict_get (py "message") r
  = Some (PStr (py "Saved order for " ++ name ++ py ": " ++ size ++ py " " ++ drinkType
                ++ py " with " ++ milk ++ py " milk"
                ++ match extras with
                   | [] => py "."
                   | first :: others =>
                       py " and " ++ first ++ flat_map (λ x, py ", " ++ x) others ++ py "."
                   end)).
Proof.
  intros (w1 & now & w2 & w3 & _ & _ & _ & _ & ->)%save_order_returned.
  unfold order_result, dict_get, message_of. cbn [find fst snd].
  change (bool_decide (py "status" = py "message")) with false.
  change (bool_decide (py "filename" = py "message")) with false.
  change (bool_decide (py "message" = py "message")) with true.
  cbn [fmap option_fmap option_map snd]. do 2 f_equal.
  destruct extras as [|first others]; [reflexivity|].
  rewrite str_join_cons. by rewrite <- !app_assoc.
Qed.

Lemma save_order_message_witness :
  save_order (py "latte") (py "medium") (py "oat") [py "extra shot"] (py "Sam") fresh_world
  = Returned sam_result sam_world
  ∧ dict_get (py "message") sam_result
    = Some (PStr (py "Saved order for " ++ py "Sam" ++ py ": " ++ py "medium" ++ py " "
                  ++ py "latte" ++ py " with " ++ py "oat" ++ py " milk"
                  ++ py " and " ++ py "extra shot" ++ flat_map (λ x, py ", " ++ x) [] ++ py ".")).
Proof.
  split; [vm_compute; reflexivity|].
  apply (save_order_message (py "latte") (py "medium") (py "oat") [py "extra shot"] (py "Sam")
           fresh_world sam_world sam_result).
  vm_compute; reflexivity.
Defined.

(** ** The end-to-end scenario *)

(** C2: whenever the tool returns for Sam's order, the file
    [orders/<timestamp>_Sam.json] holds a text that [json.loads] decodes to
    the object of the five entries in their order, and the message returned
    is the sentence of the scenario. *)
Theorem save_sam_order (w w' : world) (r : pyobj) :
  save_order (py "latte") (py "medium") (py "oat") [py "extra shot"] (py "Sam") w
  = Returned r w' →
  dict_get (py "filename") r
  = Some (PStr (py "orders/" ++ timestamp_of (clock w) ++ py "_Sam.json"))
  ∧ read_text w' (py "orders/" ++ timestamp_of (clock w) ++ py "_Sam.json") = Some sam_text
  ∧ json_loads sam_text = Some sam_order
  ∧ dict_get (py "message") r
    = Some (PStr (py "Saved order for Sam: medium latte with oat milk and extra shot."))
  ∧ dict_get (py "order") r = Some sam_order
  ∧ dict_get (py "status") r = Some (PStr (py "saved")).
Proof.
  intros Hrun. pose proof (save_order_file_present _ _ _ _ _ _ _ _ Hrun) as Hfile.
  apply save_order_posix in Hrun as (-> & _ & _).
  rewrite order_filename_eq in Hfile.
  change (py "_" ++ safe_name_of (py "Sam") ++ py ".json") with (py "_Sam.json") in Hfile.
  split; [|split; [|split; [|split; [|split]]]].
  - change (dict_get (py "filename") (order_result (clock w) (py "latte") (py "medium") (py "oat")
                                        [py "extra shot"] (py "Sam")))
      with (Some (PStr (order_filename (clock w) (py "Sam")))).
    rewrite order_filename_eq. reflexivity.
  - exact Hfile.
  - vm_compute. reflexivity.
  - reflexivity.
  - reflexivity.
  - reflexivity.
Qed.

Lemma save_sam_order_witness :
  save_order (py "latte") (py "medium") (py "oat") [py "extra shot"] (py "Sam") fresh_world
  = Returned sam_result sam_world
  ∧ read_text sam_world (py "orders/" ++ timestamp_of (clock fresh_world) ++ py "_Sam.json")
    = Some sam_text.
Proof.
  split; [vm_compute; reflexivity|].
  apply (save_sam_order fresh_world sam_world sam_result).
  vm_compute; reflexivity.
Defined.

(** ** Two saves within one second *)

Lemma save_order_not_idempotent : ¬ save_order_idempotent.
Proof.
  intros Hidem.
  pose (later := mk_datetime 2025 11 24 9 30 6 0).
  pose (w2 := world_after (save_order (py "latte") (py "medium") (py "oat") [py "extra shot"]
                             (py "Sam") (set_clock later sam_world))).
  assert (Hsame : nodes w2 = nodes sam_world).
  { apply (Hidem fresh_world sam_world w2 later (py "latte") (py "medium") (py "oat")
             [py "extra shot"] (py "Sam") sam_result
             (order_result later (py "latte") (py "medium") (py "oat") [py "extra shot"]
                (py "Sam"))); vm_compute; reflexivity. }
  assert (Hfile : nodes w2 !! py "orders/20251124-093006_Sam.json"
                  = nodes sam_world !! py "orders/20251124-093006_Sam.json")
    by (by rewrite Hsame).
  vm_compute in Hfile. discriminate.
Qed.

(** C6: the tool is not idempotent (a second run in a later second adds a
    file); yet a second save for the same name, made while the clock still
    shows the second of the first, computes the file name of the first; the
    file system has the entries it had after the first save and no other; and
    the file holds the text of the second order only, whatever the first
    wrote.  With identical arguments the two texts are the same. *)
Theorem save_twice_same_second (w w1 w2 : world) (t2 : datetime)
    (drinkType size milk : pystr) (extras : list pystr)
    (drinkType2 size2 milk2 : pystr) (extras2 : list pystr) (name : pystr) (r1 r2 : pyobj) :
  save_order drinkType size milk extras name w = Returned r1 w1 →
  same_second (clock w) t2 →
  save_order drinkType2 size2 milk2 extras2 name (set_clock t2 w1) = Returned r2 w2 →
  dict_get (py "filename") r1 = Some (PStr (order_filename (clock w) name))
  ∧ dict_get (py "filename") r2 = Some (PStr (order_filename (clock w) name))
  ∧ read_text w1 (order_filename (clock w) name)
    = Some (order_text drinkType size milk extras name)
  ∧ read_text w2 (order_filename (clock w) name)
    = Some (order_text drinkType2 size2 milk2 extras2 name)
  ∧ dom (nodes w2) = dom (nodes w1)
  ∧ (∀ p, p ≠ order_filename (clock w) name → nodes w2 !! p = nodes w1 !! p)
  ∧ ¬ save_order_idempotent.
Proof.
  intros Hrun1 Hsame Hrun2.
  pose proof (save_order_file_present _ _ _ _ _ _ _ _ Hrun1) as Hfile1.
  pose proof (save_order_file_present _ _ _ _ _ _ _ _ Hrun2) as Hfile2.
  apply save_order_posix in Hrun1 as (-> & N1 & C1).
  apply save_order_posix in Hrun2 as (-> & N2 & C2).
  cbn [set_clock clock nodes] in N2, Hfile2.
  assert (Hfn : order_filename t2 name = order_filename (clock w) name).
  { rewrite !order_filename_eq. by rewrite (timestamp_same_second _ _ Hsame). }
  rewrite Hfn in N2, Hfile2.
  assert (Hdir : nodes w1 !! ORDERS = Some Dir).
  { rewrite N1, lookup_insert_ne by apply order_filename_not_orders.
    apply lookup_insert_eq. }
  rewrite (insert_id _ _ _ Hdir) in N2.
  split; [reflexivity|]. split; [cbn; by rewrite Hfn|].
  split; [exact Hfile1|]. split; [exact Hfile2|]. split; [|split].
  - rewrite N2, dom_insert_L. apply subseteq_union_1_L, singleton_subseteq_l, elem_of_dom.
    rewrite N1, lookup_insert_eq. eauto.
  - intros p Hp. by rewrite N2, lookup_insert_ne.
  - exact save_order_not_idempotent.
Qed.

Lemma save_twice_same_second_witness :
  save_order (py "latte") (py "medium") (py "oat") [py "extra shot"] (py "Sam") fresh_world
  = Returned sam_result sam_world
  ∧ same_second (clock fresh_world) sam_time_later
  ∧ save_order (py "mocha") (py "large") (py "soy") [] (py "Sam") (set_clock sam_time_later sam_world)
    = Returned sam_rerun_result (world_after sam_rerun)
  ∧ dict_get (py "filename") sam_result
    = Some (PStr (order_filename (clock fresh_world) (py "Sam")))
  ∧ dict_get (py "filename") sam_rerun_result
    = Some (PStr (order_filename (clock fresh_world) (py "Sam")))
  ∧ read_text sam_world (order_filename (clock fresh_world) (py "Sam"))
    = Some (order_text (py "latte") (py "medium") (py "oat") [py "extra shot"] (py "Sam"))
  ∧ read_text (world_after sam_rerun) (order_filename (clock fresh_world) (py "Sam"))
    = Some (order_text (py "mocha") (py "large") (py "soy") [] (py "Sam"))
  ∧ dom (nodes (world_after sam_rerun)) = dom (nodes sam_world)
  ∧ (∀ p, p ≠ order_filename (clock fresh_world) (py "Sam") →
          nodes (world_after sam_rerun) !! p = nodes sam_world !! p)
  ∧ ¬ save_order_idempotent.
Proof.
  split; [vm_compute; reflexivity|].
  split; [vm_compute; repeat split|].
  split; [vm_compute; reflexivity|].
  apply (save_twice_same_second fresh_world sam_world (world_after sam_rerun) sam_time_later
           (py "latte") (py "medium") (py "oat") [py "extra shot"]
           (py "mocha") (py "large") (py "soy") [] (py "Sam") sam_result sam_rerun_result).
  - vm_compute; reflexivity.
  - vm_compute; repeat split.
  - vm_compute; reflexivity.
Defined.

(** A save made in a later second is a second file. *)
Example save_twice_later_second :
  let later := mk_datetime 2025 11 24 9 30 6 0 in
  let w2 := world_after (save_order (py "latte") (py "medium") (py "oat") [py "extra shot"] (py "Sam")
                           (set_clock later sam_world)) in
  read_text w2 (py "orders/20251124-093005_Sam.json") = Some sam_text
  ∧ read_text w2 (py "orders/20251124-093006_Sam.json") = Some sam_text
  ∧ base.size (nodes sam_world) = 2%nat ∧ base.size (nodes w2) = 3%nat.
Proof. vm_compute. auto. Qed.

(** ** The form of the time stamp *)

Lemma str_compare_app (a a' b b' : pystr) :
  length a = length a' →
  str_compare (a ++ b) (a' ++ b') = lex (str_compare a a') (str_compare b b').
Proof.
  revert a'. induction a as [|x a IH]; intros [|y a'] Hlen; try discriminate.
  - reflexivity.
  - cbn [app str_compare]. destruct (x ?= y); [|reflexivity..].
    apply IH. by injection Hlen.
Qed.

Lemma compare_by_digits (n n' : N) :
  (n ?= n') = lex (n / 10 ?= n' / 10) (n mod 10 ?= n' mod 10).
Proof.
  pose proof (N.div_mod n 10 ltac:(lia)) as E.
  pose proof (N.div_mod n' 10 ltac:(lia)) as E'.
  pose proof (N.mod_upper_bound n 10 ltac:(lia)) as B.
  pose proof (N.mod_upper_bound n' 10 ltac:(lia)) as B'.
  revert E E' B B'.
  generalize (n / 10), (n mod 10), (n' / 10), (n' mod 10). intros q r q' r' E E' B B'.
  destruct (N.compare_spec q q') as [Hq|Hq|Hq]; cbn [lex].
  - destruct (N.compare_spec r r'); [apply N.compare_eq_iff|apply N.compare_lt_iff
                                     |apply N.compare_gt_iff]; lia.
  - apply N.compare_lt_iff. lia.
  - apply N.compare_gt_iff. lia.
Qed.

Lemma N_compare_add_l (k a b : N) : (k + a ?= k + b) = (a ?= b).
Proof.
  destruct (N.compare_spec a b); [apply N.compare_eq_iff|apply N.compare_lt_iff
                                  |apply N.compare_gt_iff]; lia.
Qed.

(** On fields of at most [w] digits the order of the digit strings is the
    order of the numbers. *)
Lemma str_compare_zdigits (w : nat) (n n' : N) :
  n < 10 ^ N.of_nat w → n' < 10 ^ N.of_nat w →
  str_compare (zdigits w n) (zdigits w n') = (n ?= n').
Proof.
  revert n n'. induction w as [|w IH]; intros n n' Hn Hn'.
  - cbn in Hn, Hn'. assert (n = 0) as -> by lia. assert (n' = 0) as -> by lia. reflexivity.
  - cbn [zdigits]. rewrite str_compare_app by (by rewrite !length_zdigits).
    rewrite IH by (by apply div10_bound). cbn [str_compare].
    rewrite N_compare_add_l, (compare_by_digits n n').
    by destruct (n mod 10 ?= n' mod 10).
Qed.

Lemma decimal_value_snoc (s : pystr) (c : code_point) :
  decimal_value (s ++ [c]) = decimal_value s * 10 + (c - 48).
Proof. unfold decimal_value. by rewrite fold_left_app. Qed.

Lemma decimal_value_zdigits (w : nat) (n : N) :
  n < 10 ^ N.of_nat w → decimal_value (zdigits w n) = n.
Proof.
  revert n. induction w as [|w IH]; intros n Hn.
  - cbn in Hn. cbn. lia.
  - cbn [zdigits]. rewrite decimal_value_snoc, IH by (by apply div10_bound).
    pose proof (N.div_mod n 10 ltac:(lia)) as E. revert E.
    generalize (n / 10), (n mod 10). lia.
Qed.

Lemma zdigits_digits (w : nat) (n : N) : Forall is_digit (zdigits w n).
Proof.
  revert n. induction w as [|w IH]; intros n; [constructor|].
  cbn [zdigits]. apply Forall_app. split; [apply IH|].
  constructor; [|constructor]. unfold is_digit.
  pose proof (N.mod_upper_bound n 10 ltac:(lia)) as B. revert B.
  generalize (n mod 10). lia.
Qed.

(** Time stamps whose years are printed with as many digits sort as the
    times they stand for. *)
Lemma timestamp_compare (t t' : datetime) :
  valid_datetime t → valid_datetime t' →
  length (decimal (year t)) = length (decimal (year t')) →
  str_compare (timestamp_of t) (timestamp_of t') = compare_seconds t t'.
Proof.
  intros (Hy & Hm & Hd & Hh & Hmi & Hs & _) (Hy' & Hm' & Hd' & Hh' & Hmi' & Hs' & _) Hlen.
  rewrite !timestamp_of_eq. unfold compare_seconds.
  destruct (decimal_width _ Hy) as (k & Ek & Bk), (decimal_width _ Hy') as (k' & Ek' & Bk').
  rewrite Ek, Ek' in Hlen |- *. rewrite !length_zdigits in Hlen. injection Hlen as <-.
  repeat (rewrite str_compare_app by (by rewrite ?length_zdigits)).
  rewrite (str_compare_zdigits (S k)) by done.
  rewrite !str_compare_zdigits by (cbn; lia).
  reflexivity.
Qed.

(** From the year 1000 on, time stamps sort as the times they stand for. *)
Lemma timestamp_sortable (t t' : datetime) :
  valid_datetime t → valid_datetime t' → 1000 <= year t → 1000 <= year t' →
  str_compare (timestamp_of t) (timestamp_of t') = compare_seconds t t'.
Proof.
  intros V V' Hy Hy'. apply timestamp_compare; [done..|].
  destruct V as [[_ Hmax] _], V' as [[_ Hmax'] _].
  by rewrite !decimal_year by lia.
Qed.

(** C4: a run that returns gives a dictionary of the four entries [status],
    [filename], [message] and [order], in that order: the status is "saved";
    the file name is [orders/], the time stamp, an underscore, the token of
    the name and [.json]; the order is the dictionary of the five arguments.
    When the clock reads a year of four digits (1000 or later, as every
    clock of today reads), the time stamp is the year in four digits, month
    and day in two each, a hyphen, and hour, minute and second in two digits
    each (fifteen characters, the microseconds left out), each group of
    digits reading as the field it prints, and such time stamps compare as
    strings the way their times compare to the second. *)
Theorem save_order_result (w w' : world) (drinkType size milk : pystr) (extras : list pystr)
    (name : pystr) (r : pyobj) :
  valid_datetime (clock w) → 1000 <= year (clock w) →
  save_order drinkType size milk extras name w = Returned r w' →
  r = PDict [(py "status", PStr (py "saved"));
             (py "filename",
              PStr (py "orders/" ++ timestamp_of (clock w) ++ py "_" ++ safe_name_of name
                    ++ py ".json"));
             (py "message", PStr (message_of drinkType size milk extras name));
             (py "order",
              PDict [(py "drinkType", PStr drinkType); (py "size", PStr size);
                     (py "milk", PStr milk); (py "extras", PList (map PStr extras));
                     (py "name", PStr name)])]
  ∧ timestamp_of (clock w)
    = zdigits 4 (year (clock w)) ++ zdigits 2 (month (clock w)) ++ zdigits 2 (day (clock w))
      ++ py "-" ++ zdigits 2 (hour (clock w)) ++ zdigits 2 (minute (clock w))
      ++ zdigits 2 (second (clock w))
  ∧ length (timestamp_of (clock w)) = 15%nat
  ∧ Forall is_digit (zdigits 4 (year (clock w)) ++ zdigits 2 (month (clock w))
                     ++ zdigits 2 (day (clock w)) ++ zdigits 2 (hour (clock w))
                     ++ zdigits 2 (minute (clock w)) ++ zdigits 2 (second (clock w)))
  ∧ decimal_value (zdigits 4 (year (clock w))) = year (clock w)
  ∧ decimal_value (zdigits 2 (month (clock w))) = month (clock w)
  ∧ decimal_value (zdigits 2 (day (clock w))) = day (clock w)
  ∧ decimal_value (zdigits 2 (hour (clock w))) = hour (clock w)
  ∧ decimal_value (zdigits 2 (minute (clock w))) = minute (clock w)
  ∧ decimal_value (zdigits 2 (second (clock w))) = second (clock w)
  ∧ (∀ t', valid_datetime t' → 1000 <= year t' →
           str_compare (timestamp_of (clock w)) (timestamp_of t') = compare_seconds (clock w) t').
Proof.
  intros Hvalid Hyear Hrun. apply save_order_posix in Hrun as (-> & _ & _).
  split. { unfold order_result. rewrite order_filename_eq. reflexivity. }
  assert (Hts : timestamp_of (clock w)
                = zdigits 4 (year (clock w)) ++ zdigits 2 (month (clock w))
                  ++ zdigits 2 (day (clock w)) ++ py "-" ++ zdigits 2 (hour (clock w))
                  ++ zdigits 2 (minute (clock w)) ++ zdigits 2 (second (clock w))).
  { apply timestamp_of_year. destruct Hvalid as [[_ Hmax] _]. lia. }
  split; [exact Hts|].
  split; [by rewrite Hts|].
  split. { rewrite !Forall_app. repeat split; apply zdigits_digits. }
  pose proof Hvalid as (Hy & Hm & Hd & Hh & Hmi & Hs & Hus).
  repeat (split; [apply decimal_value_zdigits; cbn; lia|]).
  intros t' Hvalid' Hyear'. by apply timestamp_sortable.
Qed.

Lemma save_order_result_witness :
  valid_datetime (clock fresh_world)
  ∧ 1000 <= year (clock fresh_world)
  ∧ save_order (py "latte") (py "medium") (py "oat") [py "extra shot"] (py "Sam") fresh_world
    = Returned sam_result sam_world
  ∧ timestamp_of (clock fresh_world) = py "20251124-093005"
  ∧ length (timestamp_of (clock fresh_world)) = 15%nat.
Proof.
  assert (Hv : valid_datetime (clock fresh_world)) by (vm_compute; repeat split; discriminate).
  assert (Hy : 1000 <= year (clock fresh_world)) by (vm_compute; discriminate).
  split; [exact Hv|]. split; [exact Hy|]. split; [vm_compute; reflexivity|].
  split; [reflexivity|].
  apply (save_order_result fresh_world sam_world (py "latte") (py "medium") (py "oat")
           [py "extra shot"] (py "Sam") sam_result Hv Hy).
  vm_compute; reflexivity.
Defined.

(** ** Hexadecimal escapes and surrogate pairs *)

Lemma hexval_hexdigit (d : N) : d < 16 → hexval (hexdigit d) = Some d.
Proof.
  intros Hd.
  assert (H : d = 0 ∨ d = 1 ∨ d = 2 ∨ d = 3 ∨ d = 4 ∨ d = 5 ∨ d = 6 ∨ d = 7 ∨ d = 8
              ∨ d = 9 ∨ d = 10 ∨ d = 11 ∨ d = 12 ∨ d = 13 ∨ d = 14 ∨ d = 15) by lia.
  repeat (destruct H as [->|H]; [reflexivity|]). by subst.
Qed.

Lemma hex_digits_value (n : N) :
  n < 65536 →
  ((N.shiftr n 12 mod 16 * 16 + N.shiftr n 8 mod 16) * 16 + N.shiftr n 4 mod 16) * 16 + n mod 16
  = n.
Proof.
  intros Hn. rewrite !N.shiftr_div_pow2.
  change (2 ^ 12) with 4096. change (2 ^ 8) with 256. change (2 ^ 4) with 16.
  assert (E1 : n / 256 = n / 16 / 16) by (by rewrite N.Div0.div_div).
  assert (E2 : n / 4096 = n / 16 / 16 / 16) by (by rewrite !N.Div0.div_div).
  rewrite E1, E2.
  pose proof (N.div_mod n 16 ltac:(lia)) as D0.
  pose proof (N.div_mod (n / 16) 16 ltac:(lia)) as D1.
  pose proof (N.div_mod (n / 16 / 16) 16 ltac:(lia)) as D2.
  pose proof (N.div_mod (n / 16 / 16 / 16) 16 ltac:(lia)) as D3.
  pose proof (N.mod_upper_bound n 16 ltac:(lia)) as B0.
  pose proof (N.mod_upper_bound (n / 16) 16 ltac:(lia)) as B1.
  pose proof (N.mod_upper_bound (n / 16 / 16) 16 ltac:(lia)) as B2.
  pose proof (N.mod_upper_bound (n / 16 / 16 / 16) 16 ltac:(lia)) as B3.
  revert D0 D1 D2 D3 B0 B1 B2 B3.
  generalize (n / 16 / 16 / 16 / 16), (n / 16 / 16 / 16 mod 16), (n / 16 / 16 mod 16),
    (n / 16 mod 16), (n mod 16).
  generalize (n / 16 / 16 / 16), (n / 16 / 16), (n / 16). lia.
Qed.

(** The decoder reads back the number of a [\uXXXX] escape. *)
Lemma decode_hex4 (n : N) :
  n < 65536 →
  decode_uXXXX (hexdigit (N.shiftr n 12 mod 16)) (hexdigit (N.shiftr n 8 mod 16))
    (hexdigit (N.shiftr n 4 mod 16)) (hexdigit (n mod 16)) = Some n.
Proof.
  intros Hn. unfold decode_uXXXX.
  rewrite !hexval_hexdigit by (apply N.mod_upper_bound; lia).
  cbn [mbind option_bind]. f_equal. by apply hex_digits_value.
Qed.

Lemma land_shiftl_low (a lo : N) : lo < 1024 → N.land (N.shiftl a 10) lo = 0.
Proof.
  intros Hlo. apply N.bits_inj. intros i. rewrite N.land_spec, N.bits_0.
  destruct (N.lt_ge_cases i 10) as [Hi|Hi].
  - by rewrite N.shiftl_spec_low.
  - destruct (N.eq_dec lo 0) as [->|Hz]; [by rewrite N.bits_0, andb_false_r|].
    rewrite (N.bits_above_log2 lo i), andb_false_r; [done|].
    apply N.lt_le_trans with 10; [|done].
    apply N.log2_lt_pow2; [lia|]. exact Hlo.
Qed.

Lemma lor_shiftl_low (a lo : N) : lo < 1024 → N.lor (N.shiftl a 10) lo = a * 1024 + lo.
Proof.
  intros Hlo. pose proof (land_shiftl_low a lo Hlo) as Hz.
  rewrite <- N.lxor_lor, <- N.add_nocarry_lxor by done.
  by rewrite N.shiftl_mul_pow2.
Qed.

(** The two halves the encoder makes of a code point above the basic
    plane. *)
Lemma surrogates_of (c : N) :
  0x10000 <= c < 0x110000 →
  N.lor 0xd800 (N.land (N.shiftr (c - 0x10000) 10) 0x3ff) = 0xd800 + (c - 0x10000) / 1024
  ∧ N.lor 0xdc00 (N.land (c - 0x10000) 0x3ff) = 0xdc00 + (c - 0x10000) mod 1024
  ∧ (c - 0x10000) / 1024 < 1024.
Proof.
  intros Hc.
  assert (Hdiv : (c - 0x10000) / 1024 < 1024) by (apply N.Div0.div_lt_upper_bound; lia).
  change 0x3ff with (N.ones 10). rewrite !N.land_ones, N.shiftr_div_pow2.
  change (2 ^ 10) with 1024. rewrite (N.mod_small _ _ Hdiv).
  change 0xd800 with (N.shiftl 54 10). change 0xdc00 with (N.shiftl 55 10).
  rewrite !lor_shiftl_low by (first [exact Hdiv | apply N.mod_upper_bound; lia]).
  repeat split; [..|exact Hdiv]; change (N.shiftl 54 10) with (54 * 1024);
    change (N.shiftl 55 10) with (55 * 1024); reflexivity.
Qed.

(** The decoder puts the two halves together again. *)
Lemma surrogates_combine (n : N) :
  n < 0x100000 →
  0x10000 + N.lor (N.shiftl (0xd800 + n / 1024 - 0xd800) 10) (0xdc00 + n mod 1024 - 0xdc00)
  = 0x10000 + n.
Proof.
  intros Hn. rewrite !N.add_sub_swap, !N.sub_diag by lia. cbn [N.add].
  rewrite lor_shiftl_low by (apply N.mod_upper_bound; lia).
  pose proof (N.div_mod n 1024 ltac:(lia)). lia.
Qed.

(** ** Strings read back *)

Lemma scanstring_plain (c : code_point) (rest : pystr) :
  (c =? QUOTE) = false → (c =? BACKSLASH) = false → (c <? 32) = false →
  scanstring (c :: rest) = cons_fst c <$> scanstring rest.
Proof. intros H1 H2 H3. cbn [scanstring]. by rewrite H1, H2, H3. Qed.

Lemma scanstring_table (e ch : code_point) (rest : pystr) :
  (e =? 117) = false → unescape e = Some ch →
  scanstring (BACKSLASH :: e :: rest) = cons_fst ch <$> scanstring rest.
Proof. intros H1 H2. cbn [scanstring]. cbn [N.eqb Pos.eqb BACKSLASH QUOTE]. by rewrite H1, H2. Qed.

Lemma scanstring_u (a b c d uni : N) (s3 : pystr) :
  decode_uXXXX a b c d = Some uni →
  is_high_surrogate uni && low_escape_ahead s3 = false →
  scanstring (BACKSLASH :: 117 :: a :: b :: c :: d :: s3) = cons_fst uni <$> scanstring s3.
Proof.
  intros Hd Hs. cbn [scanstring]. cbn [N.eqb Pos.eqb BACKSLASH QUOTE]. rewrite Hd.
  destruct (is_high_surrogate uni); [|reflexivity]. cbn [andb] in Hs.
  unfold low_escape_ahead in Hs.
  destruct s3 as [|b1 [|u1 s4]]; [reflexivity..|].
  destruct ((b1 =? BACKSLASH) && (u1 =? 117)); [|reflexivity]. cbn [andb] in Hs.
  destruct s4 as [|a2 [|b2 [|c2 [|d2 s5]]]]; try discriminate.
  destruct (decode_uXXXX a2 b2 c2 d2); [|discriminate]. by rewrite Hs.
Qed.

Lemma scanstring_pair (a b c d a2 b2 c2 d2 uni uni2 : N) (s5 : pystr) :
  decode_uXXXX a b c d = Some uni → is_high_surrogate uni = true →
  decode_uXXXX a2 b2 c2 d2 = Some uni2 → is_low_surrogate uni2 = true →
  scanstring (BACKSLASH :: 117 :: a :: b :: c :: d :: BACKSLASH :: 117 :: a2 :: b2 :: c2 :: d2 :: s5)
  = cons_fst (0x10000 + N.lor (N.shiftl (uni - 0xd800) 10) (uni2 - 0xdc00)) <$> scanstring s5.
Proof.
  intros Hd Hh Hd2 Hl. cbn [scanstring]. cbn [N.eqb Pos.eqb BACKSLASH QUOTE andb].
  by rewrite Hd, Hh, Hd2, Hl.
Qed.

Lemma uescape_eq (n : N) (rest : pystr) :
  uescape n ++ rest
  = BACKSLASH :: 117 :: hexdigit (N.shiftr n 12 mod 16) :: hexdigit (N.shiftr n 8 mod 16)
    :: hexdigit (N.shiftr n 4 mod 16) :: hexdigit (n mod 16) :: rest.
Proof. reflexivity. Qed.

Lemma is_low_surrogate_false (u : N) : u < 0xdc00 ∨ 0xdfff < u → is_low_surrogate u = false.
Proof.
  intros H. unfold is_low_surrogate. apply andb_false_iff.
  destruct H; [left; apply N.leb_gt|right; apply N.leb_gt]; lia.
Qed.

(** After a high surrogate the encoder never writes an escape that reads as
    a low one, unless a low surrogate follows in the string. *)
Lemma low_escape_ahead_text (s rest : pystr) :
  is_str s → starts_low s = false →
  low_escape_ahead (flat_map escape_ascii s ++ QUOTE :: rest) = false.
Proof.
  intros Hs Hlow. destruct s as [|c s'].
  { cbn. by destruct rest. }
  apply Forall_cons in Hs as [Hc _]. cbn [starts_low] in Hlow.
  cbn [flat_map]. rewrite <- app_assoc.
  generalize (flat_map escape_ascii s' ++ QUOTE :: rest). intros T.
  unfold escape_ascii.
  destruct (c =? QUOTE) eqn:E1; [reflexivity|].
  destruct (c =? BACKSLASH) eqn:E2; [reflexivity|].
  destruct (c =? NEWLINE) eqn:E3; [reflexivity|].
  destruct (c =? 13) eqn:E4; [reflexivity|].
  destruct (c =? 9) eqn:E5; [reflexivity|].
  destruct (c =? 12) eqn:E6; [reflexivity|].
  destruct (c =? 8) eqn:E7; [reflexivity|].
  destruct ((32 <=? c) && (c <=? 126)) eqn:E8.
  { cbn [app low_escape_ahead]. rewrite E2. by destruct T. }
  destruct (c <? 0x10000) eqn:E9.
  - rewrite uescape_eq. cbn [low_escape_ahead].
    apply N.ltb_lt in E9. rewrite decode_hex4 by lia.
    by rewrite Hlow, andb_false_r.
  - apply N.ltb_ge in E9. cbv zeta.
    destruct (surrogates_of c ltac:(lia)) as (-> & -> & Hdiv).
    rewrite <- app_assoc, uescape_eq. cbn [low_escape_ahead].
    rewrite decode_hex4 by lia.
    rewrite is_low_surrogate_false by lia. apply andb_false_r.
Qed.

(** What the encoder wrote between the quotes reads back as the string. *)
Lemma scanstring_escaped (s rest : pystr) :
  plain_str s →
  scanstring (flat_map escape_ascii s ++ QUOTE :: rest) = Some (s, rest).
Proof.
  intros [Hs Hfree]. induction s as [|c s' IH]; [reflexivity|].
  apply Forall_cons in Hs as [Hc Hs]. cbn [surrogate_pair_free] in Hfree.
  apply andb_true_iff in Hfree as [Hpair Hfree]. apply negb_true_iff in Hpair.
  specialize (IH Hs Hfree).
  cbn [flat_map]. rewrite <- app_assoc.
  assert (Hlook : is_high_surrogate c
                  && low_escape_ahead (flat_map escape_ascii s' ++ QUOTE :: rest) = false).
  { apply andb_false_iff in Hpair as [Hh|Hl]; [by rewrite Hh|].
    rewrite low_escape_ahead_text by done. apply andb_false_r. }
  revert IH Hlook. generalize (flat_map escape_ascii s' ++ QUOTE :: rest). intros T IH Hlook.
  assert (Hstep : ∀ t, t = cons_fst c <$> scanstring T → t = Some (c :: s', rest))
    by (intros t ->; by rewrite IH).
  unfold escape_ascii.
  destruct (c =? QUOTE) eqn:E1.
  { apply N.eqb_eq in E1 as ->. apply Hstep. by apply scanstring_table. }
  destruct (c =? BACKSLASH) eqn:E2.
  { apply N.eqb_eq in E2 as ->. apply Hstep. by apply scanstring_table. }
  destruct (c =? NEWLINE) eqn:E3.
  { apply N.eqb_eq in E3 as ->. apply Hstep. by apply scanstring_table. }
  destruct (c =? 13) eqn:E4.
  { apply N.eqb_eq in E4 as ->. apply Hstep. by apply scanstring_table. }
  destruct (c =? 9) eqn:E5.
  { apply N.eqb_eq in E5 as ->. apply Hstep. by apply scanstring_table. }
  destruct (c =? 12) eqn:E6.
  { apply N.eqb_eq in E6 as ->. apply Hstep. by apply scanstring_table. }
  destruct (c =? 8) eqn:E7.
  { apply N.eqb_eq in E7 as ->. apply Hstep. by apply scanstring_table. }
  destruct ((32 <=? c) && (c <=? 126)) eqn:E8.
  { apply Hstep. cbn [app]. apply scanstring_plain; [done..|].
    apply andb_true_iff in E8 as [E8 _]. apply N.leb_le in E8. apply N.ltb_ge. lia. }
  destruct (c <? 0x10000) eqn:E9.
  - apply Hstep. rewrite uescape_eq. apply N.ltb_lt in E9.
    apply scanstring_u; [by apply decode_hex4|exact Hlook].
  - apply N.ltb_ge in E9. cbv zeta.
    destruct (surrogates_of c ltac:(lia)) as (-> & -> & Hdiv).
    pose proof (N.mod_upper_bound (c - 0x10000) 1024 ltac:(lia)) as Hmod.
    rewrite <- app_assoc, uescape_eq, uescape_eq.
    rewrite (scanstring_pair _ _ _ _ _ _ _ _ (0xd800 + (c - 0x10000) / 1024)
               (0xdc00 + (c - 0x10000) mod 1024)).
    + rewrite surrogates_combine by lia. apply Hstep. f_equal. f_equal. lia.
    + apply decode_hex4. lia.
    + unfold is_high_surrogate. apply andb_true_iff. split; apply N.leb_le; atoms_lia.
    + apply decode_hex4. lia.
    + unfold is_low_surrogate. apply andb_true_iff. split; apply N.leb_le; atoms_lia.
Qed.

(** ** Values read back *)

(** Induction on a value, with the hypothesis for every item of a list and
    for every value of a dictionary. *)
Lemma pyobj_nested_ind (P : pyobj → Prop) :
  (∀ s, P (PStr s)) →
  (∀ items, Forall P items → P (PList items)) →
  (∀ fields, Forall (λ kv, P kv.2) fields → P (PDict fields)) →
  ∀ v, P v.
Proof.
  intros Hstr Hlist Hdict.
  fix IH 1. intros [s|items|fields].
  - apply Hstr.
  - apply Hlist. induction items as [|x items IHitems]; constructor; [apply IH|exact IHitems].
  - apply Hdict. induction fields as [|kv fields IHfields]; constructor; [apply IH|exact IHfields].
Qed.

Lemma items_text_unfold (close sep x : pystr) (more : list pystr) :
  items_text close sep x more
  = x ++ match more with
         | [] => close
         | y :: more' => sep ++ items_text close sep y more'
         end.
Proof. by destruct more. Qed.

Lemma items_text_cons (close sep : pystr) (c : code_point) (t : pystr) (more : list pystr) :
  items_text close sep (c :: t) more
  = c :: (t ++ match more with
               | [] => close
               | y :: more' => sep ++ items_text close sep y more'
               end).
Proof. by destruct more. Qed.

Lemma str_join_items_text (close sep x : pystr) (more : list pystr) :
  str_join sep (x :: more) ++ close = items_text close sep x more.
Proof.
  revert x. induction more as [|y more IH]; intros x; [reflexivity|].
  change (str_join sep (x :: y :: more)) with (x ++ sep ++ str_join sep (y :: more)).
  rewrite <- !app_assoc, IH. reflexivity.
Qed.

Lemma skip_ws_keep (c : code_point) (rest : pystr) :
  is_ws c = false → skip_ws (c :: rest) = c :: rest.
Proof. intros Hc. cbn [skip_ws]. by rewrite Hc. Qed.

Lemma skip_ws_spaces (k : nat) (c : code_point) (rest : pystr) :
  is_ws c = false → skip_ws (repeat SPACE k ++ c :: rest) = c :: rest.
Proof.
  intros Hc. induction k as [|k IH]; [by apply skip_ws_keep|]. exact IH.
Qed.

Lemma skip_ws_newline_indent (indent level : nat) (c : code_point) (rest : pystr) :
  is_ws c = false → skip_ws (newline_indent indent level ++ c :: rest) = c :: rest.
Proof. intros Hc. unfold newline_indent. cbn. by apply skip_ws_spaces. Qed.

Lemma opening_facts (c : code_point) :
  opening c →
  is_ws c = false ∧ (c =? RBRACKET) = false ∧ (c =? RBRACE) = false ∧ (c =? COMMA) = false.
Proof. intros [-> | [-> | ->]]; repeat split. Qed.

Lemma iterencode_opening (indent level : nat) (v : pyobj) :
  ∃ c t, iterencode indent level v = c :: t ∧ opening c.
Proof.
  destruct v as [s|[|x items]|[|kv fields]]; eexists _, _; (split; [reflexivity|]);
    unfold opening; auto.
Qed.

Lemma dict_set_fresh (k : pystr) (v : pyobj) (d : list (pystr * pyobj)) :
  k ∉ map fst d → dict_set k v d = d ++ [(k, v)].
Proof.
  induction d as [|[k' v'] d IH]; intros Hk; [reflexivity|].
  cbn [dict_set]. cbn [map fst] in Hk. apply not_elem_of_cons in Hk as [Hne Hk].
  destruct (decide (k' = k)) as [->|_]; [done|]. cbn [app]. by rewrite IH.
Qed.

Lemma dict_of_pairs_app (acc fields : list (pystr * pyobj)) :
  NoDup (map fst (acc ++ fields)) →
  fold_left (λ d kv, dict_set kv.1 kv.2 d) fields acc = acc ++ fields.
Proof.
  revert acc. induction fields as [|[k v] fields IH]; intros acc Hnd.
  - by rewrite app_nil_r.
  - cbn [fold_left fst snd]. rewrite dict_set_fresh.
    + rewrite IH; rewrite <- app_assoc; [done|exact Hnd].
    + rewrite map_app in Hnd. apply NoDup_app in Hnd as (_ & Hdisj & _).
      intros Hin. apply (Hdisj k Hin). cbn. left.
Qed.

Lemma dict_of_pairs_nodup (fields : list (pystr * pyobj)) :
  NoDup (map fst fields) → dict_of_pairs fields = fields.
Proof. intros Hnd. unfold dict_of_pairs. by rewrite dict_of_pairs_app. Qed.

Lemma array_items_step (f : nat) (s rest r1 : pystr) (value : pyobj) (c : code_point) :
  scan_once f s = Some (value, rest) → skip_ws rest = c :: r1 →
  array_items (S f) s
  = if c =? RBRACKET then Some ([value], r1)
    else if c =? COMMA then cons_fst value <$> array_items f (skip_ws r1)
    else None.
Proof. intros Hv Hws. cbn [array_items]. rewrite Hv. cbn. by rewrite Hws. Qed.

Lemma object_pairs_step (f : nat) (s r0 r1 r2 r3 : pystr) (key : pystr) (value : pyobj)
    (c : code_point) :
  scanstring s = Some (key, r0) → skip_ws r0 = COLON :: r1 →
  scan_once f (skip_ws r1) = Some (value, r2) → skip_ws r2 = c :: r3 →
  object_pairs (S f) s
  = if c =? RBRACE then Some ([(key, value)], r3)
    else if c =? COMMA then
      match skip_ws r3 with
      | [] => None
      | q :: r4 =>
          if q =? QUOTE then cons_fst (key, value) <$> object_pairs f r4 else None
      end
    else None.
Proof.
  intros Hk Hc Hv Hws. cbn [object_pairs]. rewrite Hk. cbn. rewrite Hc. cbn.
  rewrite Hv. cbn. by rewrite Hws.
Qed.

Lemma array_items_text (indent level : nat) (rest : pystr) (more : list pyobj) (x : pyobj)
    (f : nat) :
  Forall (reads_back indent level) (x :: more) →
  (fold_right (λ y acc, S (cost y + acc)) 0 (x :: more) ≤ f)%nat →
  array_items f
    (items_text (newline_indent indent level ++ RBRACKET :: rest)
       (COMMA :: newline_indent indent (S level))
       (iterencode indent (S level) x) (map (iterencode indent (S level)) more))
  = Some (x :: more, rest).
Proof.
  revert x f. induction more as [|y more IH]; intros x f Hall Hcost.
  - apply Forall_cons in Hall as [Hx _]. cbn [fold_right] in Hcost.
    destruct f as [|f]; [lia|]. cbn [items_text map].
    rewrite (array_items_step f _ _ rest x RBRACKET (Hx f _ ltac:(lia))).
    + reflexivity.
    + by apply skip_ws_newline_indent.
  - apply Forall_cons in Hall as [Hx Hall]. cbn [fold_right] in Hcost.
    destruct f as [|f]; [lia|]. cbn [items_text map app].
    rewrite (array_items_step f _ _ _ x COMMA (Hx f _ ltac:(lia)) (skip_ws_keep COMMA _ eq_refl)).
    change (COMMA =? RBRACKET) with false. change (COMMA =? COMMA) with true. cbv iota.
    destruct (iterencode_opening indent (S level) y) as (c & t & Et & Hc).
    apply opening_facts in Hc as (Hws & _).
    assert (Hskip : ∀ tl, skip_ws (newline_indent indent (S level)
                                   ++ iterencode indent (S level) y ++ tl)
                          = iterencode indent (S level) y ++ tl).
    { intros tl. rewrite Et. cbn [app]. by apply skip_ws_newline_indent. }
    rewrite (items_text_unfold _ _ (iterencode indent (S level) y)), Hskip.
    rewrite <- items_text_unfold.
    by rewrite (IH y f Hall ltac:(cbn [fold_right]; lia)).
Qed.

Lemma field_text_eq (indent level : nat) (kv : pystr * pyobj) (tl : pystr) :
  field_text indent level kv ++ tl
  = QUOTE :: flat_map escape_ascii kv.1
    ++ QUOTE :: COLON :: SPACE :: iterencode indent (S level) kv.2 ++ tl.
Proof.
  unfold field_text, encode_basestring_ascii. cbn [app].
  rewrite <- !app_assoc. reflexivity.
Qed.

Lemma skip_ws_space_value (indent level : nat) (v : pyobj) (tl : pystr) :
  skip_ws (SPACE :: iterencode indent (S level) v ++ tl) = iterencode indent (S level) v ++ tl.
Proof.
  destruct (iterencode_opening indent (S level) v) as (c & t & -> & Hc).
  apply opening_facts in Hc as (Hws & _). cbn [app]. by apply (skip_ws_spaces 1).
Qed.

Lemma object_pairs_text (indent level : nat) (rest : pystr) (more : list (pystr * pyobj))
    (kv : pystr * pyobj) (f : nat) :
  Forall (λ kv, plain_str kv.1 ∧ reads_back indent level kv.2) (kv :: more) →
  (fold_right (λ kv acc, S (cost (snd kv) + acc)) 0 (kv :: more) ≤ f)%nat →
  ∃ body,
    items_text (newline_indent indent level ++ RBRACE :: rest)
      (COMMA :: newline_indent indent (S level)) (field_text indent level kv)
      (map (field_text indent level) more)
    = QUOTE :: body
    ∧ object_pairs f body = Some (kv :: more, rest).
Proof.
  revert kv f. induction more as [|kv' more IH]; intros [k v] f Hall Hcost.
  - apply Forall_cons in Hall as [[Hk Hv] _]. cbn [fold_right snd fst] in *.
    destruct f as [|f]; [lia|]. cbn [items_text map]. rewrite field_text_eq.
    eexists. split; [reflexivity|]. cbn [fst snd].
    erewrite (object_pairs_step f _ _ _ _ rest k v RBRACE); cycle 1.
    + by apply scanstring_escaped.
    + by apply skip_ws_keep.
    + rewrite skip_ws_space_value. apply Hv. lia.
    + by apply skip_ws_newline_indent.
    + reflexivity.
  - apply Forall_cons in Hall as [[Hk Hv] Hall]. cbn [fold_right snd fst] in *.
    destruct f as [|f]; [lia|].
    destruct (IH kv' f Hall ltac:(cbn [fold_right]; lia)) as (body' & Ebody & Hbody).
    cbn [items_text map]. rewrite Ebody, field_text_eq.
    eexists. split; [reflexivity|]. cbn [fst snd app].
    erewrite (object_pairs_step f _ _ _ _ _ k v COMMA); cycle 1.
    + by apply scanstring_escaped.
    + by apply skip_ws_keep.
    + rewrite skip_ws_space_value. apply Hv. lia.
    + by apply skip_ws_keep.
    + change (COMMA =? RBRACE) with false. change (COMMA =? COMMA) with true. cbv iota.
      rewrite skip_ws_newline_indent by reflexivity.
      change (QUOTE =? QUOTE) with true. cbv iota. by rewrite Hbody.
Qed.

Lemma plain_items (items : list pyobj) :
  fold_right (λ x acc, plain_obj x ∧ acc) True items → Forall plain_obj items.
Proof.
  induction items as [|x items IH]; [constructor|]. intros [Hx Hrest].
  constructor; [exact Hx|by apply IH].
Qed.

Lemma plain_fields (fields : list (pystr * pyobj)) :
  fold_right (λ kv acc, plain_str (fst kv) ∧ plain_obj (snd kv) ∧ acc) True fields →
  Forall (λ kv, plain_str kv.1 ∧ plain_obj kv.2) fields.
Proof.
  induction fields as [|kv fields IH]; [constructor|]. intros (Hk & Hv & Hrest).
  constructor; [by split|by apply IH].
Qed.

(** The decoder, given calls enough, reads a dumped value back and stops
    right after it. *)
Lemma scan_once_dumped (v : pyobj) :
  plain_obj v →
  ∀ (indent level f : nat) (rest : pystr),
    (cost v ≤ f)%nat → scan_once f (iterencode indent level v ++ rest) = Some (v, rest).
Proof.
  induction v as [s|items IH|fields IH] using pyobj_nested_ind;
    intros Hplain indent level f rest Hcost.
  - destruct f as [|f]; [cbn in Hcost; lia|].
    cbn [iterencode]. unfold encode_basestring_ascii. rewrite <- !app_assoc.
    cbn [app scan_once]. change (QUOTE =? QUOTE) with true. cbv iota.
    by rewrite scanstring_escaped.
  - destruct f as [|f]; [cbn in Hcost; lia|].
    destruct items as [|x items]; [reflexivity|].
    assert (Hall : Forall (reads_back indent level) (x :: items)).
    { cbn [plain_obj] in Hplain. apply plain_items in Hplain.
      rewrite Forall_forall in IH, Hplain. apply Forall_forall.
      intros y Hy f' rest' Hf'. apply (IH y Hy (Hplain y Hy)); exact Hf'. }
    cbn [iterencode map]. rewrite <- !app_assoc. cbn [app].
    rewrite str_join_items_text.
    destruct (iterencode_opening indent (S level) x) as (c & t & Et & Hc).
    apply opening_facts in Hc as (Hws & Hrb & _).
    cbn [scan_once]. change (LBRACKET =? QUOTE) with false.
    change (LBRACKET =? LBRACKET) with true. cbv iota.
    rewrite Et, items_text_cons.
    rewrite skip_ws_newline_indent by done. rewrite Hrb.
    rewrite <- items_text_cons, <- Et.
    rewrite array_items_text; [reflexivity|exact Hall|]. cbn [cost] in Hcost. lia.
  - destruct f as [|f]; [cbn in Hcost; lia|].
    destruct fields as [|kv fields]; [reflexivity|].
    cbn [plain_obj] in Hplain. destruct Hplain as [Hnodup Hplain]. apply plain_fields in Hplain.
    assert (Hall : Forall (λ kv, plain_str kv.1 ∧ reads_back indent level kv.2) (kv :: fields)).
    { rewrite Forall_forall in IH, Hplain. apply Forall_forall.
      intros y Hy. destruct (Hplain y Hy) as [Hk Hp]. split; [exact Hk|].
      intros f' rest' Hf'. apply (IH y Hy Hp); exact Hf'. }
    destruct (object_pairs_text indent level rest fields kv f Hall) as (body & Ebody & Hbody).
    { cbn [cost] in Hcost. lia. }
    cbn [iterencode]. rewrite <- !app_assoc. cbn [app].
    change (map _ (kv :: fields))
      with (field_text indent level kv :: map (field_text indent level) fields).
    rewrite str_join_items_text, Ebody.
    cbn [scan_once]. change (LBRACE =? QUOTE) with false.
    change (LBRACE =? LBRACKET) with false. change (LBRACE =? LBRACE) with true. cbv iota.
    rewrite skip_ws_newline_indent by done.
    change (QUOTE =? RBRACE) with false. change (QUOTE =? QUOTE) with true. cbv iota.
    rewrite Hbody. cbn -[dict_of_pairs]. by rewrite dict_of_pairs_nodup.
Qed.

Lemma join_cost {A : Type} (cst : A → nat) (enc : A → pystr) (sep : pystr) (items : list A) :
  (1 ≤ length sep)%nat →
  Forall (λ y, (cst y ≤ length (enc y))%nat) items →
  (fold_right (λ y acc, S (cst y + acc)) 0 items ≤ length (str_join sep (map enc items)) + 1)%nat.
Proof.
  intros Hsep Hall. induction Hall as [|x items Hx Hall IH]; [cbn; lia|].
  destruct items as [|y more].
  - cbn. lia.
  - cbn [fold_right] in IH |- *. cbn [map] in IH |- *.
    change (str_join sep (enc x :: enc y :: map enc more))
      with (enc x ++ sep ++ str_join sep (enc y :: map enc more)).
    rewrite !length_app. lia.
Qed.

Lemma length_newline_indent (indent level : nat) : (1 ≤ length (newline_indent indent level))%nat.
Proof. cbn. lia. Qed.

(** The text of a value is at least as long as the decoder's calls nest. *)
Lemma cost_le_length (v : pyobj) :
  ∀ indent level, (cost v ≤ length (iterencode indent level v))%nat.
Proof.
  induction v as [s|items IH|fields IH] using pyobj_nested_ind; intros indent level.
  - cbn. rewrite length_app. cbn. lia.
  - destruct items as [|x items]; [cbn; lia|].
    cbn [iterencode cost]. rewrite !length_app.
    pose proof (length_newline_indent indent (S level)).
    pose proof (length_newline_indent indent level).
    pose proof (join_cost cost (iterencode indent (S level))
                  (COMMA :: newline_indent indent (S level)) (x :: items)
                  ltac:(cbn; lia)) as Hj.
    cbn [length]. rewrite Forall_forall in IH.
    specialize (Hj ltac:(apply Forall_forall; intros y Hy; apply (IH y Hy))). lia.
  - destruct fields as [|kv fields]; [cbn; lia|].
    cbn [iterencode cost]. rewrite !length_app.
    pose proof (length_newline_indent indent (S level)).
    pose proof (length_newline_indent indent level).
    pose proof (join_cost (λ kv, cost kv.2) (field_text indent level)
                  (COMMA :: newline_indent indent (S level)) (kv :: fields)
                  ltac:(cbn; lia)) as Hj.
    cbn [length]. rewrite Forall_forall in IH.
    assert (Hall : Forall (λ y, (cost y.2 ≤ length (field_text indent level y))%nat) (kv :: fields)).
    { apply Forall_forall. intros y Hy. unfold field_text. rewrite !length_app.
      specialize (IH y Hy indent (S level)). lia. }
    specialize (Hj Hall). unfold field_text in Hj. lia.
Qed.

Lemma skip_ws_dumped (indent level : nat) (v : pyobj) :
  skip_ws (iterencode indent level v) = iterencode indent level v.
Proof.
  destruct (iterencode_opening indent level v) as (c & t & -> & Hc).
  apply opening_facts in Hc as (Hws & _). by apply skip_ws_keep.
Qed.

(** [json.loads] gives back the value [json.dump] wrote. *)
Lemma json_loads_dump (v : pyobj) : plain_obj v → json_loads (json_dump v) = Some v.
Proof.
  intros Hplain. unfold json_loads, json_dump. rewrite skip_ws_dumped.
  pose proof (cost_le_length v 2 0) as Hcost.
  pose proof (scan_once_dumped v Hplain 2 0 (S (length (iterencode 2 0 v))) [] ltac:(lia)) as Hscan.
  rewrite app_nil_r in Hscan. rewrite Hscan. reflexivity.
Qed.

(** ** The file read back *)

Lemma plain_literal_keys :
  NoDup (map fst [(py "drinkType", PStr []); (py "size", PStr []); (py "milk", PStr []);
                  (py "extras", PStr []); (py "name", PStr [])])
  ∧ plain_str (py "drinkType") ∧ plain_str (py "size") ∧ plain_str (py "milk")
  ∧ plain_str (py "extras") ∧ plain_str (py "name").
Proof.
  split.
  - apply (bool_decide_unpack _). vm_compute. reflexivity.
  - repeat split; try reflexivity; unfold is_str; repeat constructor.
Qed.

Lemma plain_strings (items : list pystr) :
  Forall plain_str items → fold_right (λ x acc, plain_obj x ∧ acc) True (map PStr items).
Proof. induction 1 as [|x items Hx _ IH]; [exact I|]. split; [exact Hx|exact IH]. Qed.

Lemma asdict_plain (o : OrderState) :
  plain_str (drinkType o) → plain_str (size o) → plain_str (milk o) →
  Forall plain_str (extras o) → plain_str (name o) →
  plain_obj (asdict o).
Proof.
  intros Hd Hs Hm He Hn.
  destruct plain_literal_keys as (Hkeys & K1 & K2 & K3 & K4 & K5).
  unfold asdict. cbn [plain_obj fold_right fst snd]. split; [exact Hkeys|].
  repeat split; try assumption; try apply K1; try apply K2; try apply K3; try apply K4;
    try apply K5; try apply Hd; try apply Hs; try apply Hm; try apply Hn.
  by apply plain_strings.
Qed.

(** C1, as amended: for arguments whose strings are plain (no high
    surrogate directly followed by a low one, which holds of all well-formed
    Unicode text), a run that returns leaves a file whose text [json.loads]
    decodes to the object of the five arguments, keyed [drinkType], [size],
    [milk], [extras], [name] in this order; the text has the five entries in
    that order, one a line. *)
Theorem save_order_file_read_back (w w' : world) (drinkType size milk : pystr)
    (extras : list pystr) (name : pystr) (r : pyobj) :
  plain_str drinkType → plain_str size → plain_str milk → Forall plain_str extras →
  plain_str name →
  save_order drinkType size milk extras name w = Returned r w' →
  ∃ text,
    read_text w' (order_filename (clock w) name) = Some text
    ∧ dict_get (py "filename") r = Some (PStr (order_filename (clock w) name))
    ∧ json_loads text
      = Some (PDict [(py "drinkType", PStr drinkType); (py "size", PStr size);
                     (py "milk", PStr milk); (py "extras", PList (map PStr extras));
                     (py "name", PStr name)])
    ∧ text
      = py "{" ++ newline_indent 2 1
        ++ quoted (py "drinkType") ++ py ": " ++ encode_basestring_ascii drinkType
        ++ py "," ++ newline_indent 2 1
        ++ quoted (py "size") ++ py ": " ++ encode_basestring_ascii size
        ++ py "," ++ newline_indent 2 1
        ++ quoted (py "milk") ++ py ": " ++ encode_basestring_ascii milk
        ++ py "," ++ newline_indent 2 1
        ++ quoted (py "extras") ++ py ": " ++ iterencode 2 1 (PList (map PStr extras))
        ++ py "," ++ newline_indent 2 1
        ++ quoted (py "name") ++ py ": " ++ encode_basestring_ascii name
        ++ newline_indent 2 0 ++ py "}".
Proof.
  intros Hd Hs Hm He Hn Hrun.
  exists (order_text drinkType size milk extras name).
  split; [by eapply save_order_file_present|].
  split. { apply save_order_posix in Hrun as (-> & _). reflexivity. }
  split.
  - unfold order_text. rewrite json_loads_dump; [reflexivity|]. by apply asdict_plain.
  - unfold order_text, json_dump, quoted.
    change (asdict (mk_order drinkType size milk extras name))
      with (PDict [(py "drinkType", PStr drinkType); (py "size", PStr size);
                   (py "milk", PStr milk); (py "extras", PList (map PStr extras));
                   (py "name", PStr name)]).
    cbn [iterencode map fst snd str_join].
    rewrite <- !app_assoc. reflexivity.
Qed.

Lemma save_order_file_read_back_witness :
  plain_str (py "latte") ∧ plain_str (py "medium") ∧ plain_str (py "oat")
  ∧ Forall plain_str [py "extra shot"] ∧ plain_str (py "Sam")
  ∧ save_order (py "latte") (py "medium") (py "oat") [py "extra shot"] (py "Sam") fresh_world
    = Returned sam_result sam_world
  ∧ ∃ text,
      read_text sam_world (order_filename (clock fresh_world) (py "Sam")) = Some text
      ∧ dict_get (py "filename") sam_result
        = Some (PStr (order_filename (clock fresh_world) (py "Sam")))
      ∧ json_loads text
        = Some (PDict [(py "drinkType", PStr (py "latte")); (py "size", PStr (py "medium"));
                       (py "milk", PStr (py "oat"));
                       (py "extras", PList (map PStr [py "extra shot"]));
                       (py "name", PStr (py "Sam"))])
      ∧ text
        = py "{" ++ newline_indent 2 1
          ++ quoted (py "drinkType") ++ py ": " ++ encode_basestring_ascii (py "latte")
          ++ py "," ++ newline_indent 2 1
          ++ quoted (py "size") ++ py ": " ++ encode_basestring_ascii (py "medium")
          ++ py "," ++ newline_indent 2 1
          ++ quoted (py "milk") ++ py ": " ++ encode_basestring_ascii (py "oat")
          ++ py "," ++ newline_indent 2 1
          ++ quoted (py "extras") ++ py ": "
          ++ iterencode 2 1 (PList (map PStr [py "extra shot"]))
          ++ py "," ++ newline_indent 2 1
          ++ quoted (py "name") ++ py ": " ++ encode_basestring_ascii (py "Sam")
          ++ newline_indent 2 0 ++ py "}".
Proof.
  assert (P : ∀ s, forallb (λ c, c <? 0x110000) s = true → surrogate_pair_free s = true →
                   plain_str s).
  { intros s Hs Hf. split; [|exact Hf]. apply Forall_forall. intros c Hc.
    apply N.ltb_lt. rewrite forallb_forall in Hs. apply Hs. by apply list_elem_of_In. }
  assert (P1 : plain_str (py "latte")) by (apply P; vm_compute; reflexivity).
  assert (P2 : plain_str (py "medium")) by (apply P; vm_compute; reflexivity).
  assert (P3 : plain_str (py "oat")) by (apply P; vm_compute; reflexivity).
  assert (P4 : Forall plain_str [py "extra shot"])
    by (constructor; [apply P; vm_compute; reflexivity|constructor]).
  assert (P5 : plain_str (py "Sam")) by (apply P; vm_compute; reflexivity).
  split; [exact P1|]. split; [exact P2|]. split; [exact P3|]. split; [exact P4|].
  split; [exact P5|]. split; [vm_compute; reflexivity|].
  apply (save_order_file_read_back fresh_world sam_world (py "latte") (py "medium") (py "oat")
           [py "extra shot"] (py "Sam") sam_result P1 P2 P3 P4 P5).
  vm_compute; reflexivity.
Defined.

(** Counterexample to C1 as stated: all five arguments are Python strings, the
    run returns, and the parsed content of the file is not the five
    arguments: its milk is one code point where the argument has two. *)
Lemma save_order_surrogate_pair_not_read_back :
  is_str split_pair
  ∧ ∃ r text,
      split_pair_run = Returned r (world_after split_pair_run)
      ∧ read_text (world_after split_pair_run) (py "orders/20251124-093005_Sam.json") = Some text
      ∧ dict_get (py "filename") r = Some (PStr (py "orders/20251124-093005_Sam.json"))
      ∧ json_loads text
        = Some (PDict [(py "drinkType", PStr (py "latte")); (py "size", PStr (py "medium"));
                       (py "milk", PStr [0x1F600]); (py "extras", PList []);
                       (py "name", PStr (py "Sam"))])
      ∧ json_loads text
        ≠ Some (PDict [(py "drinkType", PStr (py "latte")); (py "size", PStr (py "medium"));
                       (py "milk", PStr split_pair); (py "extras", PList []);
                       (py "name", PStr (py "Sam"))]).
Proof.
  split; [unfold is_str, split_pair; repeat constructor|].
  eexists _, _. split; [vm_compute; reflexivity|].
  split; [vm_compute; reflexivity|]. split; [vm_compute; reflexivity|].
  split; [vm_compute; reflexivity|]. vm_compute. discriminate.
Qed.

(** ** The greeting at the start of a session *)

(** C9: however the event loop schedules the entry hook, a session start
    issues exactly two requests for a reply, both after the session has
    started: the bootstrap's own, which directly follows the start when the
    hook has not run yet, and the one of the agent's [on_enter]; the two
    instructions are different texts that open with the same words. *)
Theorem session_start_greets_twice (yields_at_start yields_at_reply : bool) :
  trace (my_agent yields_at_start yields_at_reply)
  = (if yields_at_start
     then [SessionStarted; ReplyRequested on_enter_greeting; ReplyRequested bootstrap_greeting]
     else [SessionStarted; ReplyRequested bootstrap_greeting; ReplyRequested on_enter_greeting])
  ∧ length (reply_requests (trace (my_agent yields_at_start yields_at_reply))) = 2%nat
  ∧ reply_requests (trace (my_agent yields_at_start yields_at_reply))
    ≡ₚ [bootstrap_greeting; on_enter_greeting]
  ∧ pending (my_agent yields_at_start yields_at_reply) = []
  ∧ bootstrap_greeting ≠ on_enter_greeting
  ∧ startswith (py "Greet the user as a ") bootstrap_greeting = true
  ∧ startswith (py "Greet the user as a ") on_enter_greeting = true.
Proof.
  destruct yields_at_start, yields_at_reply;
    (split; [reflexivity|]); (split; [reflexivity|]);
    (split; [first [reflexivity | apply Permutation_swap]|]);
    (split; [reflexivity|]); (split; [discriminate|]); split; reflexivity.
Qed.


(** * Further properties of the order-capture tool *)

(** ** The token and the file name *)

Lemma space_to_underscore_idem (c : code_point) :
  (λ c, if c =? SPACE then UNDERSCORE else c)
    ((λ c, if c =? SPACE then UNDERSCORE else c) c)
  = (λ c, if c =? SPACE then UNDERSCORE else c) c.
Proof. cbv beta. destruct (c =? SPACE) eqn:E; [reflexivity|]. by rewrite E. Qed.

Lemma space_to_underscore_fixed (s : pystr) :
  map (λ c, if c =? SPACE then UNDERSCORE else c) s = s ↔ SPACE ∉ s.
Proof.
  induction s as [|c s IH]; [split; [intros _; apply not_elem_of_nil|done]|].
  cbn [map]. rewrite not_elem_of_cons. split.
  - intros [= Hc Hs]. split; [|by apply IH].
    intros <-. discriminate Hc.
  - intros [Hc Hs]. apply IH in Hs. rewrite Hs.
    destruct (c =? SPACE) eqn:E; [|reflexivity].
    apply N.eqb_eq in E. congruence.
Qed.

Lemma space_not_in_token (s : pystr) :
  SPACE ∉ map (λ c, if c =? SPACE then UNDERSCORE else c) s.
Proof.
  intros (c & Hc & _)%list_elem_of_fmap.
  destruct (c =? SPACE) eqn:E; [discriminate Hc|].
  apply N.eqb_neq in E. congruence.
Qed.

(** The token is never empty and never has a space; deriving the token of a
    token changes nothing; and the token is the name itself exactly for the
    names that are not empty and have no space. *)
Theorem safe_name_normal_form (name : pystr) :
  safe_name_of name ≠ []
  ∧ (SPACE ∉ safe_name_of name)
  ∧ safe_name_of (safe_name_of name) = safe_name_of name
  ∧ (safe_name_of name = name ↔ name ≠ [] ∧ SPACE ∉ name).
Proof.
  destruct name as [|c rest].
  { split; [discriminate|]. split; [|split; [reflexivity|]].
    - rewrite safe_name_of_eq. apply (bool_decide_unpack _). vm_compute. reflexivity.
    - split; [discriminate|]. by intros [? _]. }
  assert (E : safe_name_of (c :: rest)
              = map (λ c, if c =? SPACE then UNDERSCORE else c) (c :: rest))
    by apply safe_name_of_eq.
  split; [by rewrite E|]. split; [rewrite E; apply space_not_in_token|]. split.
  - rewrite E. cbn [map]. rewrite safe_name_of_eq. cbn [map].
    rewrite space_to_underscore_idem. f_equal.
    rewrite <- list_fmap_compose. apply list_fmap_ext. intros _ x _.
    apply space_to_underscore_idem.
  - rewrite E, space_to_underscore_fixed. split; [by intros ?|by intros [_ ?]].
Qed.

Lemma count_char_app (c : code_point) (a b : pystr) :
  count_char c (a ++ b) = (count_char c a + count_char c b)%nat.
Proof.
  induction a as [|x a IH]; [reflexivity|]. cbn [app count_char]. rewrite IH.
  by destruct (x =? c).
Qed.

Lemma count_char_of_digits (c : code_point) (s : pystr) :
  c < 48 → Forall is_digit s → count_char c s = 0%nat.
Proof.
  intros Hc Hs. induction Hs as [|x s Hx Hs IH]; [reflexivity|].
  cbn [count_char]. unfold is_digit in Hx.
  assert (E : (x =? c) = false) by (apply N.eqb_neq; lia).
  by rewrite E.
Qed.

Lemma count_char_digits (c : code_point) (w : nat) (n : N) :
  c < 48 → count_char c (zdigits w n) = 0%nat.
Proof. intros Hc. apply count_char_of_digits; [exact Hc|apply zdigits_digits]. Qed.

Lemma count_char_decimal (c : code_point) (n : N) :
  c < 48 → count_char c (decimal n) = 0%nat.
Proof. intros Hc. apply count_char_of_digits; [exact Hc|apply decimal_digits]. Qed.

Lemma count_slash_token (name : pystr) :
  count_char SLASH (safe_name_of name) = count_char SLASH name.
Proof.
  rewrite safe_name_of_eq. destruct name as [|c rest]; [reflexivity|].
  induction (c :: rest) as [|x s IH]; [reflexivity|].
  cbn [map count_char]. rewrite IH.
  destruct (x =? SPACE) eqn:E; [|reflexivity].
  apply N.eqb_eq in E as ->. reflexivity.
Qed.

Lemma order_filename_count_slash (now : datetime) (name : pystr) :
  count_char SLASH (order_filename now name) = S (count_char SLASH name).
Proof.
  rewrite order_filename_eq, timestamp_of_eq, !count_char_app.
  rewrite count_char_decimal, !count_char_digits by (unfold SLASH; lia).
  rewrite count_slash_token.
  change (count_char SLASH (py "orders/")) with 1%nat.
  change (count_char SLASH (py "-")) with 0%nat.
  change (count_char SLASH (py "_")) with 0%nat.
  change (count_char SLASH (py ".json")) with 0%nat. lia.
Qed.

(** In any world, the file name a run returns has one path separator more
    than the name: the one after [orders], and every one of the name, which
    the token keeps. *)
Theorem save_order_filename_separators {W : Type} `{OS W} (drinkType size milk : pystr)
    (extras : list pystr) (name : pystr) (w w' : W) (r : pyobj) :
  save_order drinkType size milk extras name w = Returned r w' →
  ∃ filename,
    dict_get (py "filename") r = Some (PStr filename)
    ∧ count_char SLASH filename = S (count_char SLASH name).
Proof.
  intros (w1 & now & w2 & w3 & _ & _ & _ & _ & ->)%save_order_returned.
  exists (order_filename now name). split; [reflexivity|].
  apply order_filename_count_slash.
Qed.

Lemma save_order_filename_separators_witness :
  save_order (py "latte") (py "medium") (py "oat") [py "extra shot"] (py "Sam") fresh_world
  = Returned sam_result sam_world
  ∧ ∃ filename,
      dict_get (py "filename") sam_result = Some (PStr filename)
      ∧ count_char SLASH filename = S (count_char SLASH (py "Sam")).
Proof.
  split; [vm_compute; reflexivity|].
  apply (save_order_filename_separators (py "latte") (py "medium") (py "oat") [py "extra shot"]
           (py "Sam") fresh_world sam_world sam_result).
  vm_compute; reflexivity.
Defined.

(** ** Which saves share a file *)

Lemma str_compare_refl (s : pystr) : str_compare s s = Eq.
Proof. induction s as [|c s IH]; [reflexivity|]. cbn [str_compare]. by rewrite N.compare_refl. Qed.

Lemma lex_eq (c rest : comparison) : lex c rest = Eq → c = Eq ∧ rest = Eq.
Proof. by destruct c. Qed.

(** Time stamps are equal only for readings of the clock within one
    second. *)
Lemma length_timestamp_eq (t : datetime) :
  length (timestamp_of t) = (length (decimal (year t)) + 11)%nat.
Proof. rewrite timestamp_of_eq, length_app. reflexivity. Qed.

Lemma timestamp_inj (t1 t2 : datetime) :
  valid_datetime t1 → valid_datetime t2 →
  timestamp_of t1 = timestamp_of t2 → same_second t1 t2.
Proof.
  intros H1 H2 E.
  assert (Hlen : length (decimal (year t1)) = length (decimal (year t2))).
  { apply (f_equal length) in E. rewrite !length_timestamp_eq in E. lia. }
  pose proof (timestamp_compare t1 t2 H1 H2 Hlen) as Hc.
  rewrite E, str_compare_refl in Hc. symmetry in Hc. unfold compare_seconds in Hc.
  repeat (apply lex_eq in Hc as [?%N.compare_eq Hc]). apply N.compare_eq in Hc.
  by repeat split.
Qed.

Lemma length_timestamp (t : datetime) :
  valid_datetime t → 1000 <= year t → length (timestamp_of t) = 15%nat.
Proof. intros [[_ Hmax] _] Hy. by rewrite timestamp_of_year by lia. Qed.

(** A time stamp is made of digits and one hyphen. *)
Lemma timestamp_no_underscore (t : datetime) : UNDERSCORE ∉ timestamp_of t.
Proof.
  assert (Hd : ∀ s, Forall is_digit s → UNDERSCORE ∉ s).
  { intros s Hs Hin. rewrite Forall_forall in Hs. apply Hs in Hin.
    unfold is_digit, UNDERSCORE in Hin. lia. }
  rewrite timestamp_of_eq, !not_elem_of_app.
  repeat split; try (apply Hd; first [apply decimal_digits|apply zdigits_digits]).
  by intros [=]%list_elem_of_singleton.
Qed.

(** Two file names are the same exactly for readings within one second and
    names of one token. *)
Lemma order_filename_inj (t1 t2 : datetime) (n1 n2 : pystr) :
  valid_datetime t1 → valid_datetime t2 →
  order_filename t1 n1 = order_filename t2 n2
  ↔ same_second t1 t2 ∧ safe_name_of n1 = safe_name_of n2.
Proof.
  intros H1 H2. rewrite !order_filename_eq. split.
  - intros E. apply app_inv_head in E.
    apply not_elem_of_app_cons_inv_l in E as (Ets & _ & E);
      [|apply timestamp_no_underscore..].
    apply app_inv_tail in E.
    split; [by apply timestamp_inj|exact E].
  - intros [Hs ->]. by rewrite (timestamp_same_second _ _ Hs).
Qed.

(** Two runs that return give the same file name exactly when their clocks
    read within one second and their names have one token. *)
Theorem save_order_same_file_iff (w1 w1' w2 w2' : world)
    (drinkType1 size1 milk1 : pystr) (extras1 : list pystr) (name1 : pystr)
    (drinkType2 size2 milk2 : pystr) (extras2 : list pystr) (name2 : pystr) (r1 r2 : pyobj) :
  valid_datetime (clock w1) → valid_datetime (clock w2) →
  save_order drinkType1 size1 milk1 extras1 name1 w1 = Returned r1 w1' →
  save_order drinkType2 size2 milk2 extras2 name2 w2 = Returned r2 w2' →
  dict_get (py "filename") r1 = dict_get (py "filename") r2
  ↔ same_second (clock w1) (clock w2) ∧ safe_name_of name1 = safe_name_of name2.
Proof.
  intros H1 H2 (-> & _)%save_order_posix (-> & _)%save_order_posix.
  rewrite <- (order_filename_inj _ _ _ _ H1 H2).
  change (dict_get (py "filename") (order_result (clock w1) drinkType1 size1 milk1 extras1 name1))
    with (Some (PStr (order_filename (clock w1) name1))).
  change (dict_get (py "filename") (order_result (clock w2) drinkType2 size2 milk2 extras2 name2))
    with (Some (PStr (order_filename (clock w2) name2))).
  split; [by intros [= ?]|by intros ->].
Qed.

Lemma save_order_same_file_iff_witness :
  valid_datetime (clock fresh_world)
  ∧ valid_datetime (clock (set_clock sam_time_later sam_world))
  ∧ save_order (py "latte") (py "medium") (py "oat") [py "extra shot"] (py "Sam") fresh_world
    = Returned sam_result sam_world
  ∧ save_order (py "mocha") (py "large") (py "soy") [] (py "Sam") (set_clock sam_time_later sam_world)
    = Returned sam_rerun_result (world_after sam_rerun)
  ∧ (dict_get (py "filename") sam_result = dict_get (py "filename") sam_rerun_result
     ↔ same_second (clock fresh_world) (clock (set_clock sam_time_later sam_world))
       ∧ safe_name_of (py "Sam") = safe_name_of (py "Sam")).
Proof.
  assert (V1 : valid_datetime (clock fresh_world)) by (vm_compute; repeat split; discriminate).
  assert (V2 : valid_datetime (clock (set_clock sam_time_later sam_world)))
    by (vm_compute; repeat split; discriminate).
  split; [exact V1|]. split; [exact V2|].
  split; [vm_compute; reflexivity|]. split; [vm_compute; reflexivity|].
  apply (save_order_same_file_iff fresh_world sam_world (set_clock sam_time_later sam_world)
           (world_after sam_rerun) (py "latte") (py "medium") (py "oat") [py "extra shot"]
           (py "Sam") (py "mocha") (py "large") (py "soy") [] (py "Sam") sam_result
           sam_rerun_result V1 V2).
  - vm_compute; reflexivity.
  - vm_compute; reflexivity.
Defined.

(** ** What a run leaves alone *)















(** ** The text of the file is ASCII *)

Lemma printable_ascii (c : code_point) : 32 <= c <= 126 → ascii_text_char c.
Proof. by right. Qed.

Lemma printable_all (s : pystr) :
  forallb (λ c, (32 <=? c) && (c <=? 126)) s = true → Forall ascii_text_char s.
Proof.
  intros Hs. apply Forall_forall. intros c Hc. apply printable_ascii.
  rewrite forallb_forall in Hs. specialize (Hs c ltac:(by apply list_elem_of_In)).
  apply andb_true_iff in Hs as [?%N.leb_le ?%N.leb_le]. lia.
Qed.

Lemma hexdigit_ascii (d : N) : d < 16 → ascii_text_char (hexdigit d).
Proof.
  intros Hd. right. unfold hexdigit. destruct (d <? 10) eqn:E.
  - apply N.ltb_lt in E. lia.
  - apply N.ltb_ge in E. lia.
Qed.

Lemma uescape_ascii (n : N) : Forall ascii_text_char (uescape n).
Proof.
  unfold uescape, hex4. apply Forall_app. split; [by apply printable_all|].
  repeat (apply Forall_cons; split; [apply hexdigit_ascii, N.mod_upper_bound; lia|]).
  constructor.
Qed.

Lemma escape_ascii_ascii (c : code_point) : Forall ascii_text_char (escape_ascii c).
Proof.
  unfold escape_ascii.
  destruct (c =? QUOTE); [by apply printable_all|].
  destruct (c =? BACKSLASH); [by apply printable_all|].
  destruct (c =? NEWLINE); [by apply printable_all|].
  destruct (c =? 13); [by apply printable_all|].
  destruct (c =? 9); [by apply printable_all|].
  destruct (c =? 12); [by apply printable_all|].
  destruct (c =? 8); [by apply printable_all|].
  destruct ((32 <=? c) && (c <=? 126)) eqn:E.
  { apply printable_all. cbn [forallb]. by rewrite E. }
  destruct (c <? 0x10000); [apply uescape_ascii|].
  cbv zeta. apply Forall_app. split; apply uescape_ascii.
Qed.

Lemma encode_basestring_ascii_ascii (s : pystr) :
  Forall ascii_text_char (encode_basestring_ascii s).
Proof.
  unfold encode_basestring_ascii. rewrite !Forall_app. split; [|split].
  - by apply printable_all.
  - induction s as [|c s IH]; [constructor|]. cbn [flat_map]. apply Forall_app.
    split; [apply escape_ascii_ascii|exact IH].
  - by apply printable_all.
Qed.

Lemma newline_indent_ascii (indent level : nat) :
  Forall ascii_text_char (newline_indent indent level).
Proof.
  unfold newline_indent. constructor; [by left|].
  induction (indent * level)%nat as [|k IH]; [constructor|].
  cbn [repeat]. constructor; [by apply printable_ascii|exact IH].
Qed.

Lemma str_join_ascii (sep : pystr) (parts : list pystr) :
  Forall ascii_text_char sep → Forall (Forall ascii_text_char) parts →
  Forall ascii_text_char (str_join sep parts).
Proof.
  intros Hsep Hparts. induction Hparts as [|x parts Hx Hparts IH]; [constructor|].
  destruct parts as [|y more]; [exact Hx|].
  change (str_join sep (x :: y :: more)) with (x ++ sep ++ str_join sep (y :: more)).
  rewrite !Forall_app. by repeat split.
Qed.

Lemma separator_ascii (indent level : nat) :
  Forall ascii_text_char (COMMA :: newline_indent indent level).
Proof. constructor; [by apply printable_ascii|apply newline_indent_ascii]. Qed.

Lemma iterencode_ascii (v : pyobj) :
  ∀ indent level, Forall ascii_text_char (iterencode indent level v).
Proof.
  induction v as [s|items IH|fields IH] using pyobj_nested_ind; intros indent level.
  - apply encode_basestring_ascii_ascii.
  - destruct items as [|x items]; [by apply printable_all|].
    cbn [iterencode]. rewrite !Forall_app.
    split; [by apply printable_all|].
    split; [apply newline_indent_ascii|]. split; [|split].
    + apply str_join_ascii; [apply separator_ascii|].
      apply Forall_fmap. eapply Forall_impl; [exact IH|]. intros y Hy. apply Hy.
    + apply newline_indent_ascii.
    + by apply printable_all.
  - destruct fields as [|kv fields]; [by apply printable_all|].
    cbn [iterencode]. rewrite !Forall_app.
    split; [by apply printable_all|].
    split; [apply newline_indent_ascii|]. split; [|split].
    + apply str_join_ascii; [apply separator_ascii|].
      apply Forall_fmap. eapply Forall_impl; [exact IH|]. intros y Hy. cbv beta.
      unfold compose. rewrite !Forall_app. split; [apply encode_basestring_ascii_ascii|].
      split; [by apply printable_all|apply Hy].
    + apply newline_indent_ascii.
    + by apply printable_all.
Qed.

(** Whatever the characters of the arguments, the file a returning run
    leaves holds printable ASCII characters and line feeds only. *)
Theorem save_order_file_is_ascii (w w' : world) (drinkType size milk : pystr)
    (extras : list pystr) (name : pystr) (r : pyobj) :
  save_order drinkType size milk extras name w = Returned r w' →
  ∃ text,
    read_text w' (order_filename (clock w) name) = Some text
    ∧ Forall ascii_text_char text.
Proof.
  intros Hrun. exists (order_text drinkType size milk extras name).
  split; [by eapply save_order_file_present|]. apply iterencode_ascii.
Qed.

Lemma save_order_file_is_ascii_witness :
  zoe_run = Returned (default sam_result (returned zoe_run)) (world_after zoe_run)
  ∧ ∃ text,
      read_text (world_after zoe_run) (order_filename (clock fresh_world) [90; 111; 235])
      = Some text
      ∧ Forall ascii_text_char text.
Proof.
  split; [vm_compute; reflexivity|].
  apply (save_order_file_is_ascii fresh_world (world_after zoe_run) (py "latte") (py "medium")
           [0x1F600] [[0x4E2D; 0x6587]] [90; 111; 235] (default sam_result (returned zoe_run))).
  vm_compute; reflexivity.
Defined.

(** ** When a run returns *)











Lemma makedirs_orders_world (w w1 : world) :
  makedirs ORDERS true w = Returned tt w1 → w1 = set_nodes (insert ORDERS Dir) w.
Proof.
  rewrite makedirs_orders_cases. destruct (nodes w !! ORDERS) as [[|text]|] eqn:E.
  - intros [= <-]. destruct w as [c n u f]. unfold set_nodes. cbn in *. by rewrite insert_id.
  - discriminate.
  - destruct (decide _); [discriminate|]. by intros [= <-].
Qed.


Lemma write_opened_file (v : world) (p text : pystr) :
  nodes v !! p = Some (File []) →
  write_text p text v
  = if N.of_nat (length text) <=? free_space v
    then Returned tt (set_free_space (free_space v - N.of_nat (length text))
                        (set_nodes (insert p (File text)) v))
    else Raised (OSError ENOSPC)
           (set_free_space 0
              (set_nodes (insert p (File (take (N.to_nat (free_space v)) text))) v)).
Proof. intros Hp. cbn [write_text posix_world]. unfold mem_write_text. by rewrite Hp. Qed.



(** ** When a run raises *)

Lemma check_path_error (p : pystr) (e : exn) :
  check_path p = Some e →
  e = ValueError p ∨ e = UnicodeEncodeError p ∨ e = FileNotFoundError p.
Proof.
  unfold check_path. destruct (has_nul p); [intros [= <-]; auto|].
  destruct (existsb unencodable p); [intros [= <-]; auto|].
  destruct p; [intros [= <-]; auto|discriminate].
Qed.

(** A failed opening changes nothing, and its exception is one of six. *)
Lemma open_w_raised (p : pystr) (v v' : world) (e : exn) :
  open_w p v = Raised e v' →
  v' = v
  ∧ (e = ValueError p ∨ e = UnicodeEncodeError p ∨ e = FileNotFoundError p
     ∨ e = NotADirectoryError p ∨ e = IsADirectoryError p ∨ e = PermissionError p).
Proof.
  cbn [open_w posix_world]. unfold mem_open_w.
  destruct (check_path p) as [e0|] eqn:Ec.
  { intros [= <- <-]. split; [done|]. apply check_path_error in Ec. tauto. }
  destruct (nodes v !! p) as [[|old]|].
  - intros [= <- <-]. tauto.
  - destruct (decide _); [|discriminate]. intros [= <- <-]. tauto.
  - unfold create_entry. destruct (node_at v (dirname p)) as [[|?]|].
    + destruct (decide _); [|discriminate]. intros [= <- <-]. tauto.
    + intros [= <- <-]. tauto.
    + intros [= <- <-]. tauto.
Qed.

(** Every way a run can raise: the directory cannot be made and nothing has
    changed; or the file cannot be opened and nothing but the directory has;
    or the write fails and the file holds a part of the text. *)
Lemma save_order_raised_cases (w w' : world) (drinkType size milk : pystr)
    (extras : list pystr) (name : pystr) (e : exn) :
  save_order drinkType size milk extras name w = Raised e w' →
  (w' = w ∧ (e = FileExistsError ORDERS ∧ (∃ text, nodes w !! ORDERS = Some (File text))
             ∨ e = PermissionError ORDERS ∧ nodes w !! ORDERS = None))
  ∨ (w' = set_nodes (insert ORDERS Dir) w
     ∧ open_w (order_filename (clock w) name) w' = Raised e w')
  ∨ (e = OSError ENOSPC
     ∧ ∃ k, (k < length (order_text drinkType size milk extras name))%nat
            ∧ read_text w' (order_filename (clock w) name)
              = Some (take k (order_text drinkType size milk extras name))).
Proof.
  intros [Hrun|(w1 & H1 & Hrun)]%save_order_raised.
  { left. change (py "orders") with ORDERS in Hrun. rewrite makedirs_orders_cases in Hrun.
    destruct (nodes w !! ORDERS) as [[|text]|]; [discriminate| |].
    - injection Hrun as <- <-. split; [done|]. left. eauto.
    - destruct (decide _); [|discriminate]. injection Hrun as <- <-. split; [done|]. by right. }
  right. change (py "orders") with ORDERS in H1.
  apply makedirs_orders_world in H1 as ->.
  destruct Hrun as [Hrun|(now & w2 & Hnow & Hrun)]; [discriminate|].
  injection Hnow as <- <-.
  change (clock (set_nodes (insert ORDERS Dir) w)) with (clock w) in Hrun.
  destruct Hrun as [Hrun|(w3 & H3 & Hrun)].
  { left. pose proof (open_w_raised _ _ _ _ Hrun) as [-> _]. by split. }
  right. apply mem_open_w_returned in H3 as [N3 _].
  rewrite write_opened_file in Hrun by (rewrite N3; apply lookup_insert_eq).
  destruct (_ <=? _) eqn:Hroom in Hrun; [discriminate|]. injection Hrun as <- <-.
  split; [reflexivity|]. exists (N.to_nat (free_space w3)). split.
  - apply N.leb_gt in Hroom. lia.
  - unfold read_text. cbn. by rewrite lookup_insert_eq.
Qed.





(** A run raises [FileExistsError], for the directory and with nothing
    changed, exactly when the name of the directory is taken by an entry that
    is not a directory; [exist_ok] does not cover that, and no other call of
    the run raises this exception. *)
Theorem save_order_orders_not_a_directory (w : world) (drinkType size milk : pystr)
    (extras : list pystr) (name : pystr) :
  ((∃ p w', save_order drinkType size milk extras name w = Raised (FileExistsError p) w')
   ↔ ∃ n, nodes w !! ORDERS = Some n ∧ n ≠ Dir)
  ∧ (∀ p w', save_order drinkType size milk extras name w = Raised (FileExistsError p) w' →
             p = ORDERS ∧ w' = w).
Proof.
  assert (Hany : ∀ p w', save_order drinkType size milk extras name w
                         = Raised (FileExistsError p) w' →
                         p = ORDERS ∧ w' = w ∧ ∃ text, nodes w !! ORDERS = Some (File text)).
  { intros p w' [(-> & [[[= ->] Hf]|[[=] _]])|[(-> & Hopen)|([=] & _)]]%save_order_raised_cases.
    - done.
    - apply open_w_raised in Hopen as (_ & [?|[?|[?|[?|[?|?]]]]]); discriminate. }
  split; [split|].
  - intros (p & w' & Hrun). apply Hany in Hrun as (_ & _ & text & Hf).
    exists (File text). by split.
  - intros (n & Hn & Hnd). exists ORDERS, w. apply save_order_raised. left.
    change (py "orders") with ORDERS. rewrite makedirs_orders_cases, Hn.
    by destruct n.
  - intros p w' Hrun. apply Hany in Hrun as (-> & -> & _). done.
Qed.

Lemma save_order_orders_not_a_directory_witness :
  save_order (py "latte") (py "medium") (py "oat") [] (py "Sam") blocked_world
  = Raised (FileExistsError ORDERS) blocked_world
  ∧ ORDERS = ORDERS ∧ blocked_world = blocked_world.
Proof.
  split; [vm_compute; reflexivity|].
  apply (proj2 (save_order_orders_not_a_directory blocked_world (py "latte") (py "medium")
                  (py "oat") [] (py "Sam")) ORDERS blocked_world).
  vm_compute; reflexivity.
Defined.

(** ** Orders in any script *)

Lemma scalar_not_surrogate (c : code_point) :
  scalar_value c → is_high_surrogate c = false ∧ is_low_surrogate c = false.
Proof.
  unfold is_high_surrogate, is_low_surrogate. intros [Hc|[Hc _]]; split;
    apply andb_false_iff; first [left; apply N.leb_gt; lia | right; apply N.leb_gt; lia].
Qed.

(** A string of Unicode scalar values is plain. *)
Lemma scalar_plain (s : pystr) : Forall scalar_value s → plain_str s.
Proof.
  intros Hs. split.
  - eapply Forall_impl; [exact Hs|]. intros c [Hc|[_ Hc]]; lia.
  - induction Hs as [|c s Hc Hs IH]; [reflexivity|]. cbn [surrogate_pair_free].
    apply scalar_not_surrogate in Hc as [-> _]. exact IH.
Qed.

(** For arguments that are Unicode text (no surrogate code point at all),
    whatever the script, the file a returning run leaves is read back by
    [json.loads] as the object of the five arguments. *)
Theorem save_order_unicode_read_back (w w' : world) (drinkType size milk : pystr)
    (extras : list pystr) (name : pystr) (r : pyobj) :
  Forall scalar_value drinkType → Forall scalar_value size → Forall scalar_value milk →
  Forall (Forall scalar_value) extras → Forall scalar_value name →
  save_order drinkType size milk extras name w = Returned r w' →
  json_loads <$> read_text w' (order_filename (clock w) name)
  = Some (Some (PDict [(py "drinkType", PStr drinkType); (py "size", PStr size);
                       (py "milk", PStr milk); (py "extras", PList (map PStr extras));
                       (py "name", PStr name)])).
Proof.
  intros Hd Hs Hm He Hn Hrun.
  rewrite (save_order_file_present _ _ _ _ _ _ _ _ Hrun). cbn [fmap option_fmap option_map].
  unfold order_text. rewrite json_loads_dump; [reflexivity|].
  apply asdict_plain;
    [exact (scalar_plain _ Hd)|exact (scalar_plain _ Hs)|exact (scalar_plain _ Hm)|
    |exact (scalar_plain _ Hn)].
  eapply Forall_impl; [exact He|]. apply scalar_plain.
Qed.

Lemma save_order_unicode_read_back_witness :
  Forall scalar_value (py "latte") ∧ Forall scalar_value (py "medium")
  ∧ Forall scalar_value [0x1F600] ∧ Forall (Forall scalar_value) [[0x4E2D; 0x6587]]
  ∧ Forall scalar_value [90; 111; 235]
  ∧ zoe_run = Returned (default sam_result (returned zoe_run)) (world_after zoe_run)
  ∧ json_loads <$> read_text (world_after zoe_run)
                     (order_filename (clock fresh_world) [90; 111; 235])
    = Some (Some (PDict [(py "drinkType", PStr (py "latte")); (py "size", PStr (py "medium"));
                         (py "milk", PStr [0x1F600]);
                         (py "extras", PList (map PStr [[0x4E2D; 0x6587]]));
                         (py "name", PStr [90; 111; 235])])).
Proof.
  assert (S : ∀ s, forallb (λ c, (c <? 0xD800) || ((0xDFFF <? c) && (c <? 0x110000))) s = true →
                   Forall scalar_value s).
  { intros s Hs. apply Forall_forall. intros c Hc. rewrite forallb_forall in Hs.
    specialize (Hs c ltac:(by apply list_elem_of_In)).
    apply orb_true_iff in Hs as [?%N.ltb_lt|[?%N.ltb_lt ?%N.ltb_lt]%andb_true_iff];
      [by left|by right]. }
  assert (S1 : Forall scalar_value (py "latte")) by (apply S; vm_compute; reflexivity).
  assert (S2 : Forall scalar_value (py "medium")) by (apply S; vm_compute; reflexivity).
  assert (S3 : Forall scalar_value [0x1F600]) by (apply S; vm_compute; reflexivity).
  assert (S4 : Forall (Forall scalar_value) [[0x4E2D; 0x6587]])
    by (constructor; [apply S; vm_compute; reflexivity|constructor]).
  assert (S5 : Forall scalar_value [90; 111; 235]) by (apply S; vm_compute; reflexivity).
  split; [exact S1|]. split; [exact S2|]. split; [exact S3|]. split; [exact S4|].
  split; [exact S5|]. split; [vm_compute; reflexivity|].
  apply (save_order_unicode_read_back fresh_world (world_after zoe_run) (py "latte")
           (py "medium") [0x1F600] [[0x4E2D; 0x6587]] [90; 111; 235]
           (default sam_result (returned zoe_run)) S1 S2 S3 S4 S5).
  vm_compute; reflexivity.
Defined.

(** ** Saves that do not share a file *)



(** ** File names sort by time *)

Lemma order_filename_compare (t1 t2 : datetime) (n1 n2 : pystr) :
  valid_datetime t1 → valid_datetime t2 → 1000 <= year t1 → 1000 <= year t2 →
  str_compare (order_filename t1 n1) (order_filename t2 n2)
  = lex (compare_seconds t1 t2)
        (str_compare (safe_name_of n1 ++ py ".json") (safe_name_of n2 ++ py ".json")).
Proof.
  intros V1 V2 Y1 Y2. rewrite !order_filename_eq.
  rewrite str_compare_app by reflexivity. rewrite str_compare_refl. cbn [lex].
  rewrite str_compare_app by (by rewrite !length_timestamp).
  rewrite timestamp_sortable by done.
  rewrite str_compare_app by reflexivity. by rewrite str_compare_refl.
Qed.

(** The file names two returning runs give, when their clocks read years
    of four digits (1000 or later), compare as strings first as the times of
    the runs compare to the second, whatever the names, and within one
    second as the tokens followed by [.json] compare. *)
Theorem save_order_files_sort_by_time (w1 w1' w2 w2' : world)
    (drinkType1 size1 milk1 : pystr) (extras1 : list pystr) (name1 : pystr)
    (drinkType2 size2 milk2 : pystr) (extras2 : list pystr) (name2 : pystr) (r1 r2 : pyobj) :
  valid_datetime (clock w1) → valid_datetime (clock w2) →
  1000 <= year (clock w1) → 1000 <= year (clock w2) →
  save_order drinkType1 size1 milk1 extras1 name1 w1 = Returned r1 w1' →
  save_order drinkType2 size2 milk2 extras2 name2 w2 = Returned r2 w2' →
  ∃ f1 f2,
    dict_get (py "filename") r1 = Some (PStr f1)
    ∧ dict_get (py "filename") r2 = Some (PStr f2)
    ∧ str_compare f1 f2
      = lex (compare_seconds (clock w1) (clock w2))
            (str_compare (safe_name_of name1 ++ py ".json") (safe_name_of name2 ++ py ".json")).
Proof.
  intros V1 V2 Y1 Y2 (-> & _)%save_order_posix (-> & _)%save_order_posix.
  exists (order_filename (clock w1) name1), (order_filename (clock w2) name2).
  split; [reflexivity|]. split; [reflexivity|]. by apply order_filename_compare.
Qed.

Lemma save_order_files_sort_by_time_witness :
  valid_datetime (clock fresh_world)
  ∧ valid_datetime (clock (set_clock sam_time_next sam_world))
  ∧ 1000 <= year (clock fresh_world)
  ∧ 1000 <= year (clock (set_clock sam_time_next sam_world))
  ∧ save_order (py "latte") (py "medium") (py "oat") [py "extra shot"] (py "Sam") fresh_world
    = Returned sam_result sam_world
  ∧ next_run
    = Returned (order_result sam_time_next (py "mocha") (py "large") (py "soy") [] (py "Sam"))
        (world_after next_run)
  ∧ ∃ f1 f2,
      dict_get (py "filename") sam_result = Some (PStr f1)
      ∧ dict_get (py "filename")
          (order_result sam_time_next (py "mocha") (py "large") (py "soy") [] (py "Sam"))
        = Some (PStr f2)
      ∧ str_compare f1 f2
        = lex (compare_seconds (clock fresh_world) (clock (set_clock sam_time_next sam_world)))
              (str_compare (safe_name_of (py "Sam") ++ py ".json")
                           (safe_name_of (py "Sam") ++ py ".json")).
Proof.
  assert (V1 : valid_datetime (clock fresh_world)) by (vm_compute; repeat split; discriminate).
  assert (V2 : valid_datetime (clock (set_clock sam_time_next sam_world)))
    by (vm_compute; repeat split; discriminate).
  assert (Y1 : 1000 <= year (clock fresh_world)) by (vm_compute; discriminate).
  assert (Y2 : 1000 <= year (clock (set_clock sam_time_next sam_world)))
    by (vm_compute; discriminate).
  split; [exact V1|]. split; [exact V2|]. split; [exact Y1|]. split; [exact Y2|].
  split; [vm_compute; reflexivity|]. split; [vm_compute; reflexivity|].
  apply (save_order_files_sort_by_time fresh_world sam_world (set_clock sam_time_next sam_world)
           (world_after next_run) (py "latte") (py "medium") (py "oat") [py "extra shot"]
           (py "Sam") (py "mocha") (py "large") (py "soy") [] (py "Sam") sam_result
           (order_result sam_time_next (py "mocha") (py "large") (py "soy") [] (py "Sam"))
           V1 V2 Y1 Y2).
  - vm_compute; reflexivity.
  - vm_compute; reflexivity.
Defined.
